(** * Verification of the Synspec run-staging orchestrator

    Shallow embedding of [aeqwabun/synspec/synspec.py] (class [Synspec]):
    the link table, dependency discovery, staging, the runner and the output
    reconciler, over an explicit model of the filesystem with symbolic links,
    in a state-and-exception monad that records every external effect. *)

From Stdlib Require Import Ascii String ZArith Lia.
From stdpp Require Import base option list strings gmap fin_maps.


(* ===================================================================== *)
(** ** Strings: the text operations the source relies on *)
(* ===================================================================== *)

Module Str.

Definition slash : ascii := "/"%char.
Definition lbrace : ascii := "{"%char.
Definition rbrace : ascii := "}"%char.

(** [s.startswith("/")] *)
Definition starts_with_slash (s : string) : bool :=
  match s with
  | String c _ => bool_decide (c = slash)
  | EmptyString => false
  end.

(** [s.split("/")]: the pieces between slashes, empty pieces included. *)
Fixpoint split_slash (s : string) : list string :=
  match s with
  | EmptyString => [EmptyString]
  | String c rest =>
      if bool_decide (c = slash) then EmptyString :: split_slash rest
      else match split_slash rest with
           | piece :: pieces => String c piece :: pieces
           | [] => [String c EmptyString]
           end
  end.

(** [s.split("/", maxsplit=1)[0]]: the text before the first slash. *)
Fixpoint before_slash (s : string) : string :=
  match s with
  | EmptyString => EmptyString
  | String c rest =>
      if bool_decide (c = slash) then EmptyString
      else String c (before_slash rest)
  end.

(** ["/".join(parts)] *)
Fixpoint join_slash (parts : list string) : string :=
  match parts with
  | [] => ""
  | [p] => p
  | p :: ps => p +:+ "/" +:+ join_slash ps
  end.

(** [str.format] with keyword arguments, for templates whose replacement fields are plain
    keyword names.  ["{{"] and ["}}"] are the escapes of a brace; a field
    whose name is not a keyword of the call raises [KeyError]; a single
    closing brace or an unterminated field raises [ValueError].  Both are
    reported as [None].  Fields that carry a conversion, a format
    specification, an attribute or an index are not keywords of the call
    and are rejected as well. *)
Fixpoint format_field (kw : list (string * string)) (name : string) : option string :=
  match kw with
  | [] => None
  | (k, v) :: kw' => if String.eqb k name then Some v else format_field kw' name
  end.

Fixpoint format_go (kw : list (string * string)) (s : string)
         (field : option string) : option string :=
  match field with
  | Some name =>
      match s with
      | EmptyString => None
      | String c rest =>
          if bool_decide (c = rbrace) then
            v ← format_field kw name;
            out ← format_go kw rest None;
            Some (v +:+ out)
          else format_go kw rest (Some (name +:+ String c EmptyString))
      end
  | None =>
      match s with
      | EmptyString => Some EmptyString
      | String c rest =>
          if bool_decide (c = lbrace) then
            match rest with
            | String c' rest' =>
                if bool_decide (c' = lbrace)
                then out ← format_go kw rest' None; Some (String lbrace out)
                else format_go kw rest (Some EmptyString)
            | EmptyString => None
            end
          else if bool_decide (c = rbrace) then
            match rest with
            | String c' rest' =>
                if bool_decide (c' = rbrace)
                then out ← format_go kw rest' None; Some (String rbrace out)
                else None
            | EmptyString => None
            end
          else out ← format_go kw rest None; Some (String c out)
      end
  end.

Definition format (kw : list (string * string)) (s : string) : option string :=
  format_go kw s None.

End Str.

(* ===================================================================== *)
(** ** Pure paths ([pathlib.PurePosixPath]) *)
(* ===================================================================== *)

Module PurePath.

(** A parsed path: whether it is anchored at the root, and its segments.
    Parsing drops empty segments and ["."] segments and keeps [".."], as
    [pathlib] does.  (The implementation-defined root written with exactly
    two slashes is read as the ordinary root.) *)
Record t := mk { absolute : bool; parts : list string }.

Definition keep_part (seg : string) : bool :=
  negb (String.eqb seg "") && negb (String.eqb seg ".").

(** [Path(s)] *)
Definition parse (s : string) : t :=
  {| absolute := Str.starts_with_slash s;
     parts := List.filter keep_part (Str.split_slash s) |}.

(** [str(p)] *)
Definition to_string (p : t) : string :=
  if absolute p then "/" +:+ Str.join_slash (parts p)
  else match parts p with
       | [] => "."
       | _ => Str.join_slash (parts p)
       end.

(** [p.is_absolute()] *)
Definition is_absolute (p : t) : bool := absolute p.

(** [p.name] *)
Definition name (p : t) : string := List.last (parts p) "".

(** [p / s] *)
Definition join (p : t) (s : string) : t :=
  let q := parse s in
  if absolute q then q
  else {| absolute := absolute p; parts := parts p ++ parts q |}.

(** The path object of a physical location. *)
Definition of_location (q : list string) : t := {| absolute := true; parts := q |}.

#[global] Instance eq_dec : EqDecision t.
Proof. solve_decision. Defined.

End PurePath.

Infix "//" := PurePath.join (at level 40, left associativity).

(* ===================================================================== *)
(** ** The filesystem *)
(* ===================================================================== *)

Module FS.

(** A physical location: the segments from the root, none of them a
    symbolic link that is still to be followed. *)
Abbreviation path := (list string).

Inductive node :=
| File (content : string)
| Dir
| Link (target : string).

#[global] Instance node_eq_dec : EqDecision node.
Proof. solve_decision. Defined.

Abbreviation t := (gmap (list string) node).

Inductive errno := ENOENT | ENOTDIR | ELOOP | EEXIST | EISDIR.

(** The root is always a directory and has no entry of its own. *)
Definition node_at (fs : t) (q : path) : option node :=
  match q with
  | [] => Some Dir
  | _ => fs !! q
  end.

Definition is_dir_at (fs : t) (q : path) : bool :=
  match node_at fs q with
  | Some Dir => true
  | _ => false
  end.

Definition parent (q : path) : path := removelast q.

Definition is_nil {A} (l : list A) : bool :=
  match l with [] => true | _ => false end.

(** The number of symbolic links one resolution may follow. *)
Definition max_links : nat := 40.

(** Path resolution as the kernel does it for [stat], [open], [unlink]:
    every component but the last must be a directory, or a link to one;
    the last one may be missing (the result is then the place where it
    would be created), and is followed when it is a link only if
    [follow] is set. *)
Fixpoint walk (links : nat) (fs : t) (follow : bool)
         : path -> list string -> errno + path :=
  fix go (cur : path) (rest : list string) {struct rest} : errno + path :=
    match rest with
    | [] => inr cur
    | seg :: rest' =>
        if String.eqb seg ".." then
          if is_dir_at fs (parent cur) then go (parent cur) rest' else inl ENOENT
        else
          let p := cur ++ [seg] in
          match fs !! p with
          | None => if is_nil rest' then inr p else inl ENOENT
          | Some (File _) => if is_nil rest' then inr p else inl ENOTDIR
          | Some Dir => go p rest'
          | Some (Link tgt) =>
              if is_nil rest' && negb follow then inr p
              else match links with
                   | O => inl ELOOP
                   | S links' =>
                       let tp := PurePath.parse tgt in
                       walk links' fs follow
                            (if PurePath.absolute tp then [] else cur)
                            (PurePath.parts tp ++ rest')
                   end
          end
    end.

(** [os.path.realpath] in its lenient mode, behind [Path.resolve()]:
    missing components are kept as they are written.  A chain of links
    longer than [max_links] is reported as a loop. *)
Fixpoint realpath (links : nat) (fs : t) : path -> list string -> option path :=
  fix go (cur : path) (rest : list string) {struct rest} : option path :=
    match rest with
    | [] => Some cur
    | seg :: rest' =>
        if String.eqb seg ".." then go (parent cur) rest'
        else
          let p := cur ++ [seg] in
          match fs !! p with
          | Some (Link tgt) =>
              match links with
              | O => None
              | S links' =>
                  let tp := PurePath.parse tgt in
                  realpath links' fs
                           (if PurePath.absolute tp then [] else cur)
                           (PurePath.parts tp ++ rest')
              end
          | _ => go p rest'
          end
    end.

(** The segments to resolve from the root: a relative path is taken from
    the working directory. *)
Definition anchor (cwd : path) (p : PurePath.t) : list string :=
  if PurePath.absolute p then PurePath.parts p else cwd ++ PurePath.parts p.

Definition locate (fs : t) (cwd : path) (follow : bool) (p : PurePath.t) : errno + path :=
  walk max_links fs follow [] (anchor cwd p).

Definition resolve (fs : t) (cwd : path) (p : PurePath.t) : option path :=
  realpath max_links fs [] (anchor cwd p).

(** [os.stat] *)
Definition stat (fs : t) (cwd : path) (p : PurePath.t) : errno + node :=
  match locate fs cwd true p with
  | inl e => inl e
  | inr q => match node_at fs q with
             | Some n => inr n
             | None => inl ENOENT
             end
  end.

(** [Path.exists], [Path.is_file], [Path.is_dir]: errors read as "no". *)
Definition exists_ (fs : t) (cwd : path) (p : PurePath.t) : bool :=
  match stat fs cwd p with inr _ => true | inl _ => false end.

Definition is_file (fs : t) (cwd : path) (p : PurePath.t) : bool :=
  match stat fs cwd p with inr (File _) => true | _ => false end.

Definition is_dir (fs : t) (cwd : path) (p : PurePath.t) : bool :=
  match stat fs cwd p with inr Dir => true | _ => false end.

(** [os.mkdir] *)
Definition mkdir (fs : t) (cwd : path) (p : PurePath.t) : errno + t :=
  match locate fs cwd false p with
  | inl e => inl e
  | inr q => match node_at fs q with
             | Some _ => inl EEXIST
             | None => inr (<[q := Dir]> fs)
             end
  end.

(** [os.unlink] *)
Definition unlink (fs : t) (cwd : path) (p : PurePath.t) : errno + t :=
  match locate fs cwd false p with
  | inl e => inl e
  | inr q => match node_at fs q with
             | None => inl ENOENT
             | Some Dir => inl EISDIR
             | Some _ => inr (delete q fs)
             end
  end.

(** Reading the whole of a file opened for reading. *)
Definition read (fs : t) (cwd : path) (p : PurePath.t) : errno + string :=
  match stat fs cwd p with
  | inl e => inl e
  | inr (File c) => inr c
  | inr Dir => inl EISDIR
  | inr (Link _) => inl ELOOP
  end.

(** [open(p, "w")]: the file is created or truncated; the result is the
    filesystem and the location of the file that was opened. *)
Definition create (fs : t) (cwd : path) (p : PurePath.t) : errno + (t * path) :=
  match locate fs cwd true p with
  | inl e => inl e
  | inr q => match node_at fs q with
             | Some Dir => inl EISDIR
             | Some (Link _) => inl ELOOP
             | _ => inr (<[q := File ""]> fs, q)
             end
  end.

(** Removal of a whole tree ([shutil.rmtree]). *)
Definition rmtree (fs : t) (q : path) : t :=
  filter (λ kv, ¬ q `prefix_of` kv.1) fs.

End FS.

(* ===================================================================== *)
(** ** Exceptions, effects and the state they act on *)
(* ===================================================================== *)

(** The Python exceptions the orchestrator raises or lets through.
    [FileNotFoundError] is the error kind the specification calls
    MissingRequiredFile; [CalledProcessError] is its SolverFailed;
    [Busy] is raised by the directory lock. *)
Inductive exn :=
| NotImplementedError (msg : string)
| FileNotFoundError (msg : string)
| FileExistsError (msg : string)
| NotADirectoryError (msg : string)
| IsADirectoryError (msg : string)
| PermissionError (msg : string)
| OSError (msg : string)
| SymlinkLoop (msg : string)
| SameFileError (src dst : string)
| KeyError (key : string)
| FormatError (template : string)
| ValueError (msg : string)
| CalledProcessError (returncode : Z) (cmd : list string)
| Busy (lockfile : string).

Definition exn_of_errno (e : FS.errno) (where_ : string) : exn :=
  match e with
  | FS.ENOENT => FileNotFoundError where_
  | FS.ENOTDIR => NotADirectoryError where_
  | FS.ELOOP => SymlinkLoop where_
  | FS.EEXIST => FileExistsError where_
  | FS.EISDIR => IsADirectoryError where_
  end.

(** Where a standard stream of a child process goes. *)
Inductive redirect :=
| Inherit
| ToFile (p : string).

Inductive console := Stdout | Stderr.

(** The effects on the world outside the interpreter, in the order in
    which the code asks for them (an event is logged when the operation is
    called, whether or not it then succeeds). *)
Inductive event :=
| EvConsole (fd : console) (text : string)
| EvMkdir (p : string)
| EvUnlink (p : string)
| EvSymlink (target at_ : string)
| EvCopy (src dst : string)
| EvOpenRead (p : string)
| EvOpenWrite (p : string)
| EvSpawn (argv : list string) (stdin : string) (stdout stderr : redirect)
          (cwd : string) (returncode : option Z)
| EvAcquire (lockfile : string)
| EvRelease (lockfile : string)
| EvMkdtemp (p : string)
| EvRmtree (p : string).

(** The instance: the fields of a [Synspec] object.  [linkfiles] is a
    Python dict: its keys are unique and it keeps insertion order. *)
Record Synspec := mkSynspec {
  version : Z;
  synspec : string;
  linkfiles : list (string * string)
}.

(** What a call can read and change: the instance it is called on, the
    filesystem, the working directory of the process, the directory locks
    that are held, the names the temporary-directory generator will
    propose, and the log of effects. *)
Record state := mkState {
  self : Synspec;
  fs : FS.t;
  cwd : FS.path;
  held : list string;
  tmp_names : list string;
  trace : list event
}.

Definition set_self (x : Synspec) (s : state) : state :=
  mkState x (fs s) (cwd s) (held s) (tmp_names s) (trace s).
Definition set_fs (x : FS.t) (s : state) : state :=
  mkState (self s) x (cwd s) (held s) (tmp_names s) (trace s).
Definition set_held (x : list string) (s : state) : state :=
  mkState (self s) (fs s) (cwd s) x (tmp_names s) (trace s).
Definition set_tmp_names (x : list string) (s : state) : state :=
  mkState (self s) (fs s) (cwd s) (held s) x (trace s).
Definition log_event (e : event) (s : state) : state :=
  mkState (self s) (fs s) (cwd s) (held s) (tmp_names s) (trace s ++ [e]).

(** A computation either returns or raises; the state it reached is kept
    in both cases (a Python exception does not roll anything back). *)
Definition M (A : Type) : Type := state → (exn + A) * state.

Definition ret {A} (a : A) : M A := λ s, (inr a, s).
Definition raise {A} (e : exn) : M A := λ s, (inl e, s).
Definition bind {A B} (m : M A) (k : A → M B) : M B :=
  λ s, match m s with
       | (inl e, s') => (inl e, s')
       | (inr a, s') => k a s'
       end.
Definition gets {A} (f : state → A) : M A := λ s, (inr (f s), s).
Definition modify (f : state → state) : M unit := λ s, (inr tt, f s).
Definition emit (e : event) : M unit := modify (log_event e).

Notation "'let*' x ':=' m 'in' k" := (bind m (λ x, k))
  (at level 10, x pattern, m at level 100, k at level 200).
Notation "m ';;;' k" := (bind m (λ _, k))
  (at level 100, k at level 200, right associativity).

(** [for x in xs: body(x)] *)
Fixpoint for_ {A} (xs : list A) (body : A → M unit) : M unit :=
  match xs with
  | [] => ret tt
  | x :: xs' => body x ;;; for_ xs' body
  end.

(** A context manager: what [with m as x:] runs on entry and on exit. *)
Record ctxmgr (R : Type) := mkCtx {
  cm_enter : M R;
  cm_exit : R → M unit
}.
Arguments mkCtx {R}.
Arguments cm_enter {R}.
Arguments cm_exit {R}.

(** [with cm as x: body(x)]: the exit handler runs however the body ends.
    An exception of the body is raised again afterwards, unless the exit
    handler raises one itself: that one is what the caller gets, whether
    the body had returned or raised. *)
Definition with_ {R A} (cm : ctxmgr R) (body : R → M A) : M A :=
  λ s, match cm_enter cm s with
       | (inl e, s1) => (inl e, s1)
       | (inr r, s1) =>
           match body r s1 with
           | (res, s2) =>
               match cm_exit cm r s2 with
               | (inl e, s3) => (inl e, s3)
               | (inr _, s3) => (res, s3)
               end
           end
       end.

(** *** Filesystem operations as effects *)

Definition raise_errno {A} (e : FS.errno) (where_ : string) : M A :=
  raise (exn_of_errno e where_).

(** [Path(p).resolve()] *)
Definition path_resolve (p : PurePath.t) : M PurePath.t :=
  let* r := gets (λ s, FS.resolve (fs s) (cwd s) p) in
  match r with
  | Some q => ret (PurePath.of_location q)
  | None => raise (SymlinkLoop (PurePath.to_string p))
  end.

(** [Path.cwd()] *)
Definition path_cwd : M PurePath.t := gets (λ s, PurePath.of_location (cwd s)).

Definition path_exists (p : PurePath.t) : M bool := gets (λ s, FS.exists_ (fs s) (cwd s) p).
Definition path_is_file (p : PurePath.t) : M bool := gets (λ s, FS.is_file (fs s) (cwd s) p).
Definition path_is_dir (p : PurePath.t) : M bool := gets (λ s, FS.is_dir (fs s) (cwd s) p).

(** [p.mkdir(exist_ok=True)]: a missing parent is an error; any other
    failure is forgiven when the path is a directory already. *)
Definition path_mkdir_exist_ok (p : PurePath.t) : M unit :=
  emit (EvMkdir (PurePath.to_string p)) ;;;
  let* r := gets (λ s, FS.mkdir (fs s) (cwd s) p) in
  match r with
  | inr fs' => modify (set_fs fs')
  | inl FS.ENOENT => raise_errno FS.ENOENT (PurePath.to_string p)
  | inl e =>
      let* d := path_is_dir p in
      if d then ret tt else raise_errno e (PurePath.to_string p)
  end.

(** [p.unlink()] *)
Definition path_unlink (p : PurePath.t) : M unit :=
  emit (EvUnlink (PurePath.to_string p)) ;;;
  let* r := gets (λ s, FS.unlink (fs s) (cwd s) p) in
  match r with
  | inr fs' => modify (set_fs fs')
  | inl e => raise_errno e (PurePath.to_string p)
  end.

(** [open(p).read()] *)
Definition open_read (p : PurePath.t) : M string :=
  emit (EvOpenRead (PurePath.to_string p)) ;;;
  let* r := gets (λ s, FS.read (fs s) (cwd s) p) in
  match r with
  | inr text => ret text
  | inl e => raise_errno e (PurePath.to_string p)
  end.

(** [open(p, "w")]: returns the location of the file now open. *)
Definition open_write (p : PurePath.t) : M FS.path :=
  emit (EvOpenWrite (PurePath.to_string p)) ;;;
  let* r := gets (λ s, FS.create (fs s) (cwd s) p) in
  match r with
  | inr (fs', q) => modify (set_fs fs') ;;; ret q
  | inl e => raise_errno e (PurePath.to_string p)
  end.

(** [os.path.samefile] as [shutil.copyfile] uses it: errors read as "no". *)
Definition samefile (fs : FS.t) (cwd : FS.path) (src dst : PurePath.t) : bool :=
  match FS.locate fs cwd true src, FS.locate fs cwd true dst with
  | inr qs, inr qd => bool_decide (qs = qd) && FS.exists_ fs cwd src
  | _, _ => false
  end.

(** [shutil.copyfile(src, dst)]: both ends follow symbolic links; copying
    a file onto itself is an error. *)
Definition copyfile (src dst : PurePath.t) : M unit :=
  emit (EvCopy (PurePath.to_string src) (PurePath.to_string dst)) ;;;
  let* same := gets (λ s, samefile (fs s) (cwd s) src dst) in
  if (same : bool)
  then raise (SameFileError (PurePath.to_string src) (PurePath.to_string dst))
  else
    let* content := gets (λ s, FS.read (fs s) (cwd s) src) in
    match content with
    | inl e => raise_errno e (PurePath.to_string src)
    | inr content =>
        let* r := gets (λ s, FS.create (fs s) (cwd s) dst) in
        match r with
        | inl e => raise_errno e (PurePath.to_string dst)
        | inr (fs', q) => modify (set_fs (<[q := FS.File content]> fs'))
        end
    end.

(** [print(msg)] *)
Definition print (msg : string) : M unit := emit (EvConsole Stdout msg).

(* ===================================================================== *)
(** ** Collaborators outside [synspec.py] *)
(* ===================================================================== *)

(** What [units.readinput] returns, as far as the orchestrator reads it:
    the value under ["finstd"] when there is one, and under ["ions"] the
    ["filei"] entry of every ion record. *)
Record ModelInput := mkModelInput {
  finstd : option string;
  ions : option (list string)
}.

(** What [units.read55f] returns, as far as the orchestrator reads it. *)
Record Config := mkConfig { ichemc : Z }.

(** What one execution of the solver does: its exit status, what it
    writes to its standard output and to its standard error, and the
    filesystem it leaves. *)
Record Outcome := mkOutcome {
  exit_status : Z;
  out_text : string;
  err_text : string;
  fs_after : FS.t
}.

(** Why the operating system did not start a program: there is no such
    file ([ENOENT]); what is there may not be executed, a directory or a
    file without the permission ([EACCES]); or another error of [execve],
    with its message. *)
Inductive start_failure :=
| NoSuchProgram
| NotExecutable
| OtherStartFailure (msg : string).

(** The [OSError] that [subprocess] raises for a failed start; it names
    the program. *)
Definition exn_of_start_failure (why : start_failure) (prog : string) : exn :=
  match why with
  | NoSuchProgram => FileNotFoundError prog
  | NotExecutable => PermissionError prog
  | OtherStartFailure msg => OSError msg
  end.

(** The decoders of the two descriptor formats and the solver executable
    are opaque: [decode_input] and [decode_55] stand for the parsing done
    by [units.readinput] and [units.read55f]; [solver prog fs dir stdin] is
    the execution of the program [prog] in the directory [dir], [None] when
    the program cannot be started, and [refused prog fs dir] is then the
    reason. *)
Record Env := mkEnv {
  decode_input : string → exn + ModelInput;
  decode_55 : string → exn + Config;
  solver : string → FS.t → PurePath.t → string → option Outcome;
  refused : string → FS.t → PurePath.t → start_failure
}.

(** Modelled from the spec: [utils.symlinkf] is not among the sources. It
    force-creates a symbolic link at the destination, replacing any
    existing file or link there.  The destination is not followed when it
    is a link.  A directory at the destination is neither a file nor a
    link: it is not replaced and the call fails. *)
Definition symlinkf (target : string) (dst : PurePath.t) : M unit :=
  emit (EvSymlink target (PurePath.to_string dst)) ;;;
  let* r := gets (λ s, match FS.locate (fs s) (cwd s) false dst with
                       | inl e => inl e
                       | inr q => inr (q, FS.node_at (fs s) q)
                       end) in
  match r with
  | inl e => raise_errno e (PurePath.to_string dst)
  | inr (q, Some FS.Dir) => raise (IsADirectoryError (PurePath.to_string dst))
  | inr (q, _) => modify (λ s, set_fs (<[q := FS.Link target]> (fs s)) s)
  end.

Definition release (lockfile : string) (locks : list string) : list string :=
  List.filter (λ l, negb (String.eqb l lockfile)) locks.

(** Modelled from the spec: [utils.folderlock] is not among the sources.
    A scoped advisory lock on a directory, named by a lock file in it:
    acquisition fails with [Busy] when the lock is held, and the lock is
    released however the body ends.  It yields the directory. *)
Definition folderlock (path : PurePath.t) (lockfn : string) : ctxmgr PurePath.t :=
  let lockfile := PurePath.to_string (path // lockfn) in
  {| cm_enter :=
       emit (EvAcquire lockfile) ;;;
       let* locks := gets held in
       if bool_decide (lockfile ∈ locks) then raise (Busy lockfile)
       else modify (set_held (lockfile :: locks)) ;;; ret path;
     cm_exit := λ _,
       emit (EvRelease lockfile) ;;;
       modify (λ s, set_held (release lockfile (held s)) s) |}.

(** Modelled from the spec: [units.read55f] is not among the sources. It
    reads the configuration descriptor at the given path and decodes it. *)
Definition read55f (env : Env) (p : PurePath.t) : M Config :=
  let* text := open_read p in
  match decode_55 env text with
  | inl e => raise e
  | inr c => ret c
  end.

(** [units.readinput(text)] *)
Definition readinput (env : Env) (text : string) : M ModelInput :=
  match decode_input env text with
  | inl e => raise e
  | inr mi => ret mi
  end.

(** [tempfile.mkdtemp()]: a fresh directory under [/tmp], named by the
    first proposed name that is free. *)
Fixpoint mkdtemp (names : list string) : M string :=
  match names with
  | [] => raise (FileExistsError "No usable temporary directory name found")
  | n :: names' =>
      let d := "/tmp/" +:+ n in
      modify (set_tmp_names names') ;;;
      let* r := gets (λ s, FS.mkdir (fs s) (cwd s) (PurePath.parse d)) in
      match r with
      | inr fs' => emit (EvMkdtemp d) ;;; modify (set_fs fs') ;;; ret d
      | inl FS.EEXIST => mkdtemp names'
      | inl e => raise_errno e d
      end
  end.

(** What [TemporaryDirectory.cleanup] finds at the path of the
    directory, without following a last link. *)
Definition rmtree_target (d : string) (s : state) : FS.errno + (FS.path * option FS.node) :=
  match FS.locate (fs s) (cwd s) false (PurePath.parse d) with
  | inl e => inl e
  | inr q => inr (q, FS.node_at (fs s) q)
  end.

(** [tempfile.TemporaryDirectory()]: the directory made on entry is
    removed with all it holds on exit.  The removal is [shutil.rmtree]
    with the error handler of [tempfile]: a path that is gone is passed
    over in silence; a directory is removed with what it holds; anything
    else is an error that the exit raises: [NotADirectoryError] for a
    regular file, and for a symbolic link, which [rmtree] opens before it
    refuses it, the error of that opening, passed over when the target
    is gone, else the refusal itself. *)
Definition TemporaryDirectory : ctxmgr string :=
  {| cm_enter := let* names := gets tmp_names in mkdtemp names;
     cm_exit := λ d,
       emit (EvRmtree d) ;;;
       let* r := gets (rmtree_target d) in
       match r with
       | inl FS.ENOENT => ret tt
       | inl e => raise_errno e d
       | inr (q, None) => ret tt
       | inr (q, Some FS.Dir) => modify (λ s, set_fs (FS.rmtree (fs s) q) s)
       | inr (q, Some (FS.File _)) => raise (NotADirectoryError d)
       | inr (q, Some (FS.Link _)) =>
           let* st := gets (λ s, FS.stat (fs s) (cwd s) (PurePath.parse d)) in
           match st with
           | inl FS.ENOENT => ret tt
           | inl e => raise_errno e d
           | inr _ => raise (OSError "Cannot call rmtree on a symbolic link")
           end
       end |}.

(** [subprocess.run(argv, stdin=..., stdout=..., cwd=..., check=True)] with
    the standard input read from an open file and the standard output
    written to the open file at [log]; the standard error is not
    redirected, so the child inherits the one of the caller.  When the
    program cannot be started, the error of the operating system is
    raised: [FileNotFoundError] for a missing program, [PermissionError]
    for a directory or a file that may not be executed. *)
Definition subprocess_run (env : Env) (prog : string)
           (stdin_name stdin_text : string) (log_name : string) (log : FS.path)
           (dir : PurePath.t) : M unit :=
  let spawn rc := EvSpawn [prog] stdin_name (ToFile log_name) Inherit
                          (PurePath.to_string dir) rc in
  let* r := gets (λ s, solver env prog (fs s) dir stdin_text) in
  match r with
  | None =>
      emit (spawn None) ;;;
      let* why := gets (λ s, refused env prog (fs s) dir) in
      raise (exn_of_start_failure why prog)
  | Some out =>
      modify (set_fs (<[log := FS.File (out_text out)]> (fs_after out))) ;;;
      emit (spawn (Some (exit_status out))) ;;;
      emit (EvConsole Stderr (err_text out)) ;;;
      if bool_decide (exit_status out = 0%Z) then ret tt
      else raise (CalledProcessError (exit_status out) [prog])
  end.

(* ===================================================================== *)
(** ** The link table (a Python dict) *)
(* ===================================================================== *)

(** [d.get(k)] *)
Fixpoint dict_get (d : list (string * string)) (k : string) : option string :=
  match d with
  | [] => None
  | (k', v) :: d' => if String.eqb k' k then Some v else dict_get d' k
  end.

(** [k in d] *)
Definition dict_mem (k : string) (d : list (string * string)) : bool :=
  match dict_get d k with Some _ => true | None => false end.

(** [d[k] = v]: an existing key keeps its place, a new one goes last. *)
Fixpoint dict_set (d : list (string * string)) (k v : string) : list (string * string) :=
  match d with
  | [] => [(k, v)]
  | (k', v') :: d' =>
      if String.eqb k' k then (k, v) :: d' else (k', v') :: dict_set d' k v
  end.

(** [d[k]]: a missing key raises [KeyError]. *)
Definition dict_getitem (d : list (string * string)) (k : string) : M string :=
  match dict_get d k with
  | Some v => ret v
  | None => raise (KeyError k)
  end.

(** [template.format(...)] as an effect: a bad template raises. *)
Definition format (kw : list (string * string)) (template : string) : M string :=
  match Str.format kw template with
  | Some out => ret out
  | None => raise (FormatError template)
  end.

(* ===================================================================== *)
(** ** class [Synspec] *)
(* ===================================================================== *)

(** [Synspec.__init__] *)
Definition Synspec_init (synspecpath : string) (version : Z) : exn + Synspec :=
  if bool_decide (version ≠ 51%Z)
  then inl (NotImplementedError "Only version 51 is supported")
  else inr {| version := version;
              synspec := synspecpath;
              linkfiles := [ ("fort.19", "fort.19");
                             ("fort.55", "fort.55");
                             ("{model}.5", "{modelpath}.5");
                             ("{model}.7", "{modelpath}.7") ] |}.

Definition set_linkfiles (d : list (string * string)) (o : Synspec) : Synspec :=
  {| version := version o; synspec := synspec o; linkfiles := d |}.

(** [self.linkfiles[k] = v] *)
Definition linkfiles_setitem (k v : string) : M unit :=
  modify (λ s, set_self (set_linkfiles (dict_set (linkfiles (self s)) k v) (self s)) s).

(** [Synspec.add_link] *)
Definition add_link (linkfrom : string) (linkto : option string) : M unit :=
  let linkto := match linkto with None => linkfrom | Some l => l end in
  linkfiles_setitem linkto linkfrom.

(** The references collected from the input descriptor, and the
    candidates they become: relative ones only, cut at the first slash,
    without repetition. *)
Definition input_refs (mi : ModelInput) : list string :=
  (match finstd mi with
   | Some f => if String.eqb f "" then [] else [f]
   | None => []
   end)
  ++ (match ions mi with
      | Some l => l
      | None => []
      end).

Definition candidates (refs : list string) : list string :=
  remove_dups
    (List.map (λ x, Str.before_slash (PurePath.to_string x))
       (List.filter (λ x, negb (PurePath.is_absolute x))
          (List.map PurePath.parse refs))).

Definition model_kw (model : string) (modelpath : PurePath.t) : list (string * string) :=
  [("model", model); ("modelpath", PurePath.to_string modelpath)].

Section Orchestrator.

Context (env : Env).

(** [Synspec._remove_potential_outfiles] *)
Definition _remove_potential_outfiles (model : string) (outdir : PurePath.t)
           (outfile : string) : M unit :=
  let* d := path_is_dir outdir in
  if negb d then ret tt
  else
    for_ ["spec"; "iden"; "eqws"; "cont"] (λ ext,
      let f := outdir // (outfile +:+ "." +:+ ext) in
      print ("Should delete " +:+ PurePath.to_string f) ;;;
      let* b := path_is_file f in
      if b then path_unlink f else ret tt).

(** The first loop of [_copy_to_rundir]: a candidate becomes an entry
    mapped from itself when it exists and is not a key of the table. *)
Definition add_candidate (req : string) : M unit :=
  let* e := path_exists (PurePath.parse req) in
  let* lf := gets (λ s, linkfiles (self s)) in
  if e && negb (dict_mem req lf) then linkfiles_setitem req req else ret tt.

Definition discover_links (model : string) (modelpath : PurePath.t) : M unit :=
  let* lf := gets (λ s, linkfiles (self s)) in
  let* template := dict_getitem lf "{model}.5" in
  let* inputfile := format (model_kw model modelpath) template in
  let* text := open_read (PurePath.parse inputfile) in
  let* modelinput := readinput env text in
  for_ (candidates (input_refs modelinput)) add_candidate.

(** The detection of the need for [fort.56]. *)
Definition detect_fort56 (model : string) : M unit :=
  let* lf := gets (λ s, linkfiles (self s)) in
  if dict_mem "fort.56" lf then ret tt
  else
    let* template := dict_getitem lf "fort.55" in
    let* cofigfile := format [("model", model)] template in
    let* config := read55f env (PurePath.parse cofigfile) in
    if bool_decide (ichemc config ≠ 0%Z) then
      let* present := path_is_file (PurePath.parse "fort.56") in
      if present then linkfiles_setitem "fort.56" "fort.56"
      else raise (FileNotFoundError "Need for fort.56 detected but not found")
    else ret tt.

(** One turn of the linking loop. *)
Definition link_entry (model : string) (modelpath rundir : PurePath.t)
           (entry : string * string) : M unit :=
  let '(dst, src) := entry in
  let* srcname := format (model_kw model modelpath) src in
  let* src := path_resolve (PurePath.parse srcname) in
  let* here := path_cwd in
  let* here := path_resolve here in
  let* needed :=
    (if bool_decide (rundir ≠ here) then ret true
     else
       let* dstname := format (model_kw model modelpath) dst in
       let* dst' := path_resolve (PurePath.parse dstname) in
       ret (bool_decide (src ≠ dst'))) in
  if (needed : bool) then
    let* dstname := format (model_kw model modelpath) dst in
    symlinkf (PurePath.to_string src) (rundir // dstname)
  else ret tt.

Definition link_files (model : string) (modelpath rundir : PurePath.t) : M unit :=
  let* lf := gets (λ s, linkfiles (self s)) in
  for_ lf (link_entry model modelpath rundir).

(** [Synspec._copy_to_rundir] *)
Definition _copy_to_rundir (model : string) (modelpath rundir : PurePath.t) : M unit :=
  discover_links model modelpath ;;;
  detect_fort56 model ;;;
  link_files model modelpath rundir.

Definition required_files : list string :=
  ["fort.19"; "fort.55"; "{model}.5"; "{model}.7"].

(** [Synspec._check_files] *)
Definition _check_files (model : string) (rundir : PurePath.t) : M unit :=
  for_ required_files (λ file,
    let* name := format [("model", model)] file in
    let fn := rundir // name in
    let* present := path_exists fn in
    if present then ret tt
    else raise (FileNotFoundError (PurePath.to_string fn +:+ " not found"))).

(** [Synspec._run] *)
Definition _run (model : string) (rundir : PurePath.t) : M unit :=
  symlinkf (model +:+ ".7") (rundir // "fort.8") ;;;
  let stdin_name := PurePath.to_string (rundir // (model +:+ ".5")) in
  let log_name := PurePath.to_string (rundir // "fort.log") in
  let* modelinput := open_read (rundir // (model +:+ ".5")) in
  let* log := open_write (rundir // "fort.log") in
  let* prog := gets (λ s, synspec (self s)) in
  subprocess_run env prog stdin_name modelinput log_name log rundir.

Definition output_units : list (string * string) :=
  [("7", "spec"); ("12", "iden"); ("16", "eqws"); ("17", "cont")].

(** [Synspec._extract_outfiles] *)
Definition _extract_outfiles (model : string) (rundir outdir : PurePath.t)
           (outfile : string) : M unit :=
  path_mkdir_exist_ok outdir ;;;
  for_ output_units (λ '(unit, ext),
    copyfile (rundir // ("fort." +:+ unit)) (outdir // (outfile +:+ "." +:+ ext))) ;;;
  copyfile (rundir // "fort.log") (outdir // (outfile +:+ ".log")).

(** The body of the [with] block of [Synspec.run]. *)
Definition run_body (model : string) (modelpath outdir : PurePath.t)
           (outfile : string) (rundir : PurePath.t) : M unit :=
  _remove_potential_outfiles model outdir outfile ;;;
  _copy_to_rundir model modelpath rundir ;;;
  _check_files model rundir ;;;
  _run model rundir ;;;
  _extract_outfiles model rundir outdir outfile.

(** [tempdir()], the context manager at the end of the module, applied
    to the body of a [with] block. *)
Definition tempdir (body : PurePath.t → M unit) : M unit :=
  with_ TemporaryDirectory (λ tmpdir,
    let* p := path_resolve (PurePath.parse tmpdir) in
    body p).

(** [Synspec.run].  [rundir = None] is the explicit [None] of the source
    (a temporary directory); the default of the source is [Some "."]. *)
Definition run (model : string) (rundir outdir : option string)
           (outfile : option string) : M unit :=
  let* modelpath := path_resolve (PurePath.parse model) in
  let model := PurePath.name modelpath in
  let finish (outdir : PurePath.t) (rdprovider : (PurePath.t → M unit) → M unit) : M unit :=
    let* outdir := path_resolve outdir in
    let outfile := match outfile with None => model | Some o => o end in
    rdprovider (run_body model modelpath outdir outfile) in
  match rundir with
  | None =>
      let* outdir :=
        match outdir with
        | None => path_cwd
        | Some o => ret (PurePath.parse o)
        end in
      finish outdir tempdir
  | Some rundir =>
      let* rundir := path_resolve (PurePath.parse rundir) in
      path_mkdir_exist_ok rundir ;;;
      let outdir :=
        match outdir with
        | None => rundir
        | Some o => PurePath.parse o
        end in
      finish outdir (with_ (folderlock rundir "synspec.lock"))
  end.

End Orchestrator.

(* ===================================================================== *)
(** ** A small world to run the orchestrator in *)
(* ===================================================================== *)

Module Demo.

Definition write_all (dir : FS.path) (files : list (string * string)) (fs : FS.t) : FS.t :=
  List.fold_left (λ acc '(n, c), <[dir ++ [n] := FS.File c]> acc) files fs.

(** A solver that reads its model through [fort.8]: on the model ["ok"]
    it writes the four outputs and exits with 0; on any other it
    complains on its standard error and exits with 1. *)
Definition demo_solver (prog : string) (fs : FS.t) (dir : PurePath.t) (stdin : string)
  : option Outcome :=
  if negb (String.eqb prog "synspec") then None
  else
    match FS.read fs (PurePath.parts dir) (PurePath.parse "fort.8") with
    | inr "ok" =>
        Some (mkOutcome 0 "solver log" ""
                (write_all (PurePath.parts dir)
                   [("fort.7", "spectrum"); ("fort.12", "identification");
                    ("fort.16", "widths"); ("fort.17", "continuum")] fs))
    | _ => Some (mkOutcome 1 "partial log" "synspec: bad model atmosphere" fs)
    end.

(** Decoders: the input descriptor lists one ion file per line of text
    (here: the whole text, when not empty), and the configuration
    descriptor sets the chemistry flag when it reads ["chem"]. *)
Definition env : Env :=
  {| decode_input := λ text,
       inr (mkModelInput None (if String.eqb text "" then None else Some [text]));
     decode_55 := λ text, inr (mkConfig (if String.eqb text "chem" then 1 else 0));
     solver := demo_solver;
     refused := λ _ _ _, NoSuchProgram |}.

(** A working directory [/w] holding the four required files of the
    model [m], next to [/tmp]. *)
Definition files (input55 input5 model7 : string) : list (FS.path * FS.node) :=
  [ (["tmp"], FS.Dir); (["w"], FS.Dir);
    (["w"; "fort.19"], FS.File "lines"); (["w"; "fort.55"], FS.File input55);
    (["w"; "m.5"], FS.File input5); (["w"; "m.7"], FS.File model7) ].

Definition fresh : Synspec :=
  mkSynspec 51 "synspec"
    [ ("fort.19", "fort.19"); ("fort.55", "fort.55");
      ("{model}.5", "{modelpath}.5"); ("{model}.7", "{modelpath}.7") ].

Definition world (entries : list (FS.path * FS.node)) : state :=
  mkState fresh (list_to_map entries) ["w"] [] ["a"; "b"] [].

(** The same entries but the one named [name] in [/w]. *)
Definition without (name : string) (entries : list (FS.path * FS.node))
  : list (FS.path * FS.node) :=
  List.filter (λ kv, negb (bool_decide (kv.1 = ["w"; name]))) entries.

(** Stale artifacts of an earlier run under the name [m]. *)
Definition stale : list (FS.path * FS.node) :=
  [ (["w"; "m.spec"], FS.File "old spectrum"); (["w"; "m.iden"], FS.File "old identification");
    (["w"; "m.eqws"], FS.File "old widths"); (["w"; "m.cont"], FS.File "old continuum");
    (["w"; "m.log"], FS.File "old log") ].

End Demo.

(* ===================================================================== *)
(** ** Vocabulary of the statements *)
(* ===================================================================== *)

(** A relation between the state before and the state after that every
    step of a computation respects, whether it returns or raises. *)
Definition stable (R : relation state) {A} (m : M A) : Prop :=
  ∀ s r s', m s = (r, s') → R s s'.

(** What the body of a run leaves alone: the working directory, the locks
    and the names kept for temporary directories. *)
Definition ambient (s s' : state) : Prop :=
  cwd s' = cwd s ∧ held s' = held s ∧ tmp_names s' = tmp_names s.

(** The effects a computation adds to the log all satisfy [P]. *)
Definition emits (P : event → Prop) (s s' : state) : Prop :=
  ∃ evs, trace s' = trace s ++ evs ∧ Forall P evs.

Definition is_copy (e : event) : bool :=
  match e with EvCopy _ _ => true | _ => false end.

Definition is_spawn (e : event) : bool :=
  match e with EvSpawn _ _ _ _ _ _ => true | _ => false end.


(** The instance changes by growing only: its scalar fields stay, every
    entry of the table stays, and a new entry is mapped from itself. *)
Definition grows (s s' : state) : Prop :=
  version (self s') = version (self s) ∧
  synspec (self s') = synspec (self s) ∧
  ∀ k, dict_get (linkfiles (self s')) k
       = match dict_get (linkfiles (self s)) k with
         | Some v => Some v
         | None => if dict_mem k (linkfiles (self s')) then Some k else None
         end.

(** The effects of everything that precedes the runner. *)
Definition staging_event (e : event) : bool :=
  match e with
  | EvConsole Stdout _ | EvUnlink _ | EvOpenRead _ | EvSymlink _ _ => true
  | _ => false
  end.

(** The effects of the runner. *)
Definition runner_event (e : event) : bool :=
  match e with
  | EvSymlink _ _ | EvOpenRead _ | EvOpenWrite _ | EvSpawn _ _ _ _ _ _
  | EvConsole Stderr _ => true
  | _ => false
  end.

(** The effects of the extraction. *)
Definition extract_event (e : event) : bool :=
  match e with
  | EvMkdir _ | EvCopy _ _ => true
  | _ => false
  end.

Definition body_event (e : event) : bool :=
  staging_event e || runner_event e || extract_event e.

(** The names the check looks for, and the first of them that is missing. *)
Definition required_names (model : string) : list string :=
  ["fort.19"; "fort.55"; model +:+ ".5"; model +:+ ".7"].

Definition first_missing (s : state) (rundir : PurePath.t) (model : string) : option string :=
  List.find (λ f, negb (FS.exists_ (fs s) (cwd s) (rundir // f))) (required_names model).



(** Everything up to and including the runner, as the body of a run
    sequences it. *)
Definition before_extraction (env : Env) (model : string)
    (modelpath outdir rundir : PurePath.t) (outfile : string) : M unit :=
  _remove_potential_outfiles model outdir outfile ;;;
  _copy_to_rundir env model modelpath rundir ;;;
  _check_files model rundir ;;;
  _run env model rundir.

(** The extensions the pre-run cleanup goes through. *)
Definition data_exts : list string := ["spec"; "iden"; "eqws"; "cont"].

Definition raises_only {A} (Q : exn → Prop) (m : M A) : Prop :=
  ∀ s e s', m s = (inl e, s') → Q e.

(** An exception that is not the failure of the solver. *)
Definition not_solver_failure (e : exn) : Prop :=
  match e with
  | CalledProcessError _ _ => False
  | _ => True
  end.

(** The effects of [run] outside the body of its [with] block. *)
Definition frame_event (e : event) : bool :=
  match e with
  | EvMkdir _ | EvAcquire _ | EvRelease _ | EvMkdtemp _ | EvRmtree _ => true
  | _ => false
  end.

(** The destination directory of a call, before it is resolved: the one
    the caller names, else the run directory, else (with a temporary run
    directory) the working directory. *)
Definition destination (rundir outdir : option string) (rundir' : PurePath.t) (s : state)
  : PurePath.t :=
  match outdir, rundir with
  | Some o, _ => PurePath.parse o
  | None, Some _ => rundir'
  | None, None => PurePath.of_location (cwd s)
  end.

(** The effects of the cleanup: a message, or the removal of one of the
    four data outputs under the chosen name. *)
Definition cleanup_event (outdir : PurePath.t) (outfile : string) (e : event) : Prop :=
  (∃ msg, e = EvConsole Stdout msg)
  ∨ ∃ ext, ext ∈ data_exts
           ∧ e = EvUnlink (PurePath.to_string (outdir // (outfile +:+ "." +:+ ext))).

Definition same_locks (s s' : state) : Prop := held s' = held s.



(** What the cleanup leaves alone: it only removes entries of the
    filesystem. *)
Definition only_removes (s s' : state) : Prop :=
  fs s' ⊆ fs s ∧ self s' = self s ∧ cwd s' = cwd s ∧ held s' = held s
  ∧ tmp_names s' = tmp_names s.

(** No entry of the filesystem goes away, and nothing but the filesystem
    and the log of effects changes. *)
Definition only_adds (s s' : state) : Prop :=
  (∀ k, is_Some (fs s !! k) → is_Some (fs s' !! k))
  ∧ self s' = self s ∧ cwd s' = cwd s ∧ held s' = held s.

(** What is a regular file stays one. *)
Definition keeps_files (s s' : state) : Prop :=
  ∀ p, FS.is_file (fs s) (cwd s) p = true → FS.is_file (fs s') (cwd s') p = true.

(** The extensions of the five artifacts. *)
Definition artifact_exts : list string := ["spec"; "iden"; "eqws"; "cont"; "log"].

(** A call of [run] around its body.  The set-up: the model path is
    resolved; with a run directory of the caller, that directory is
    resolved and made, the destination is resolved, and the lock is
    taken; with a temporary one, the destination is resolved, the
    directory is made and its path resolved.  This leads from [s] to
    the state [s0] in which the body starts.  The exit of the provider
    of the run directory returns and leads from the state [s2] in which
    the body ends to the state [s'] in which the call ends. *)
Definition around_body (model : string) (rundir outdir : option string) (s : state)
    (modelpath dest rundir' : PurePath.t) (s0 s2 s' : state) : Prop :=
  path_resolve (PurePath.parse model) s = (inr modelpath, s)
  ∧ match rundir with
    | Some rd =>
        ∃ sC,
          path_resolve (PurePath.parse rd) s = (inr rundir', s)
          ∧ path_mkdir_exist_ok rundir' s = (inr tt, sC)
          ∧ path_resolve (destination rundir outdir rundir' s) sC = (inr dest, sC)
          ∧ cm_enter (folderlock rundir' "synspec.lock") sC = (inr rundir', s0)
          ∧ cm_exit (folderlock rundir' "synspec.lock") rundir' s2 = (inr tt, s')
    | None =>
        ∃ d,
          path_resolve (destination rundir outdir rundir' s) s = (inr dest, s)
          ∧ cm_enter TemporaryDirectory s = (inr d, s0)
          ∧ path_resolve (PurePath.parse d) s0 = (inr rundir', s0)
          ∧ cm_exit TemporaryDirectory d s2 = (inr tt, s')
    end.

(** The file name under which the log artifact goes: the last segment
    of [outfile.log]. *)
Definition log_entry_name (dest : PurePath.t) (outfile : string) : string :=
  PurePath.name (dest // (outfile +:+ ".log")).


(* ===================================================================== *)
(** ** Reasoning about computations *)
(* ===================================================================== *)

(** A relation between the state before and the state after that every
    step of a computation respects, whether it returns or raises. *)
Section Stable.

Context (R : relation state) `{!PreOrder R}.

Lemma stable_ret {A} (a : A) : stable R (ret a).
Proof. intros s r s' [= <- <-]. reflexivity. Qed.

Lemma stable_raise {A} (e : exn) : stable R (@raise A e).
Proof. intros s r s' [= <- <-]. reflexivity. Qed.

Lemma stable_raise_errno {A} e w : stable R (@raise_errno A e w).
Proof. apply stable_raise. Qed.

Lemma stable_gets {A} (f : state → A) : stable R (gets f).
Proof. intros s r s' [= <- <-]. reflexivity. Qed.

Lemma stable_modify (f : state → state) : (∀ s, R s (f s)) → stable R (modify f).
Proof. intros Hf s r s' [= <- <-]. apply Hf. Qed.

Lemma stable_bind {A B} (m : M A) (k : A → M B) :
  stable R m → (∀ a, stable R (k a)) → stable R (bind m k).
Proof.
  intros Hm Hk s r s'. unfold bind.
  destruct (m s) as [[e|a] s1] eqn:Em.
  - intros [= <- <-]. eapply Hm, Em.
  - intros Ek. transitivity s1; [eapply Hm, Em | eapply Hk, Ek].
Qed.

Lemma stable_for {A} (xs : list A) (body : A → M unit) :
  (∀ x, stable R (body x)) → stable R (for_ xs body).
Proof.
  intros Hb. induction xs as [|x xs IH]; simpl.
  - apply stable_ret.
  - apply stable_bind; [apply Hb | intros _; apply IH].
Qed.

Lemma stable_with {X A} (cm : ctxmgr X) (body : X → M A) :
  stable R (cm_enter cm) → (∀ x, stable R (cm_exit cm x)) → (∀ x, stable R (body x)) →
  stable R (with_ cm body).
Proof.
  intros He Hx Hb s r s'. unfold with_.
  destruct (cm_enter cm s) as [[e|x] s1] eqn:E1.
  - intros [= <- <-]. eapply He, E1.
  - destruct (body x s1) as [res s2] eqn:E2.
    destruct (cm_exit cm x s2) as [[e|[]] s3] eqn:E3; intros [= <- <-];
      (transitivity s1; [eapply He, E1 |]);
      (transitivity s2; [eapply Hb, E2 | eapply Hx, E3]).
Qed.

End Stable.

#[global] Instance ambient_preorder : PreOrder ambient.
Proof.
  split.
  - intros s. repeat split.
  - intros a b c (?&?&?) (?&?&?). repeat split; congruence.
Qed.

#[global] Instance emits_preorder P : PreOrder (emits P).
Proof.
  split.
  - intros s. exists []. split; [by rewrite app_nil_r | constructor].
  - intros a b c (e1 & H1 & F1) (e2 & H2 & F2). exists (e1 ++ e2). split.
    + by rewrite H2, H1, app_assoc.
    + by apply Forall_app.
Qed.

Lemma emits_set_fs P x s : emits P s (set_fs x s).
Proof. exists []. split; [by rewrite app_nil_r | constructor]. Qed.

Lemma emits_set_self P x s : emits P s (set_self x s).
Proof. exists []. split; [by rewrite app_nil_r | constructor]. Qed.

Lemma emits_set_held P x s : emits P s (set_held x s).
Proof. exists []. split; [by rewrite app_nil_r | constructor]. Qed.

Lemma emits_set_tmp_names P x s : emits P s (set_tmp_names x s).
Proof. exists []. split; [by rewrite app_nil_r | constructor]. Qed.

Lemma emits_log_event (P : event → Prop) e s : P e → emits P s (log_event e s).
Proof. intros H. exists [e]. split; [done | by constructor]. Qed.

Lemma emits_impl (P Q : event → Prop) s s' :
  (∀ e, P e → Q e) → emits P s s' → emits Q s s'.
Proof.
  intros HPQ (evs & E & F). exists evs. split; [done|].
  eapply Forall_impl; [exact F | exact HPQ].
Qed.

(** Stability of a composite computation, one constructor at a time: the
    leaves are left as goals on single state updates. *)
Ltac stable_step :=
  lazymatch goal with
  | |- stable _ (ret _) => apply stable_ret; try typeclasses eauto
  | |- stable _ (raise _) => apply stable_raise; try typeclasses eauto
  | |- stable _ (raise_errno _ _) => apply stable_raise_errno; try typeclasses eauto
  | |- stable _ (gets _) => apply stable_gets; try typeclasses eauto
  | |- stable _ (bind _ _) => apply stable_bind; [try typeclasses eauto | | intros ?]
  | |- stable _ (for_ _ _) => apply stable_for; [try typeclasses eauto | intros ?]
  | |- stable _ (with_ _ _) =>
      apply stable_with; [try typeclasses eauto | | intros ? | intros ?]
  | |- stable _ (modify _) => apply stable_modify; intros ?
  | |- stable _ (emit _) => apply stable_modify; intros ?
  | |- stable _ (match ?x with _ => _ end) => destruct x
  | |- stable _ (if ?x then _ else _) => destruct x
  | |- stable _ (let '(_, _) := ?x in _) => destruct x
  end.

(** *** Classes of effects *)

(** *** The link table *)

Lemma dict_get_set (d : list (string * string)) (k v k' : string) :
  dict_get (dict_set d k v) k' = if String.eqb k' k then Some v else dict_get d k'.
Proof.
  induction d as [|[k0 v0] d IH]; simpl.
  - rewrite (String.eqb_sym k k'). reflexivity.
  - destruct (String.eqb_spec k0 k) as [E1|E1]; simpl.
    + subst k0. rewrite (String.eqb_sym k k'). by destruct (String.eqb k' k).
    + rewrite IH.
      destruct (String.eqb_spec k0 k') as [E2|E2]; [|done].
      subst k0. by destruct (String.eqb_spec k' k).
Qed.

Lemma dict_keys_set (d : list (string * string)) (k v : string) :
  (dict_set d k v).*1 = if dict_mem k d then d.*1 else d.*1 ++ [k].
Proof.
  unfold dict_mem. induction d as [|[k0 v0] d IH]; [done|].
  cbn [dict_set dict_get].
  destruct (String.eqb_spec k0 k) as [E|E]; [by subst|].
  rewrite !fmap_cons, IH. by destruct (dict_get d k).
Qed.

Lemma dict_mem_get (k : string) (d : list (string * string)) :
  dict_mem k d = false ↔ dict_get d k = None.
Proof. unfold dict_mem. destruct (dict_get d k); split; congruence. Qed.

#[global] Instance grows_preorder : PreOrder grows.
Proof.
  split.
  - intros s. split; [done | split; [done |]]. intros k. unfold dict_mem.
    by destruct (dict_get (linkfiles (self s)) k).
  - intros a b c (Hv1 & Hs1 & H1) (Hv2 & Hs2 & H2).
    split; [congruence | split; [congruence |]]. intros k.
    specialize (H1 k). specialize (H2 k). unfold dict_mem in *.
    destruct (dict_get (linkfiles (self a)) k) as [va|] eqn:Ea.
    + rewrite H1 in H2. done.
    + destruct (dict_get (linkfiles (self b)) k) as [vb|] eqn:Eb.
      * rewrite H2. simpl in *. done.
      * exact H2.
Qed.

Lemma grows_same_self s s' : self s' = self s → grows s s'.
Proof.
  intros E. unfold grows, dict_mem. rewrite E.
  split; [done | split; [done |]]. intros k.
  by destruct (dict_get (linkfiles (self s)) k).
Qed.

Lemma grows_new_key s k :
  dict_mem k (linkfiles (self s)) = false →
  grows s (set_self (set_linkfiles (dict_set (linkfiles (self s)) k k) (self s)) s).
Proof.
  intros Hk. split; [done | split; [done |]]. intros k'. simpl.
  unfold dict_mem. rewrite !dict_get_set.
  destruct (String.eqb_spec k' k) as [->|Hne].
  - apply dict_mem_get in Hk. by rewrite Hk.
  - by destruct (dict_get (linkfiles (self s)) k').
Qed.

(** *** What each phase may do *)

Create HintDb stable_db.
Create HintDb orchestrator.

#[global] Hint Unfold path_resolve path_cwd path_exists path_is_file path_is_dir
  path_mkdir_exist_ok path_unlink open_read open_write copyfile print symlinkf
  read55f readinput subprocess_run dict_getitem format
  _remove_potential_outfiles discover_links link_entry link_files _copy_to_rundir
  _check_files _run _extract_outfiles run_body : orchestrator.

Ltac stable_leaf :=
  first
    [ apply emits_set_fs | apply emits_set_self | apply emits_set_held
    | apply emits_set_tmp_names
    | apply emits_log_event; reflexivity
    | apply grows_same_self; reflexivity
    | split; [reflexivity | split; reflexivity] ].

Ltac head_of t :=
  lazymatch t with
  | ?f _ => head_of f
  | _ => t
  end.

Ltac unfold_head :=
  lazymatch goal with
  | |- stable _ ?m => let h := head_of m in progress unfold h
  end.

Ltac stable_more :=
  repeat first
    [ solve [auto with stable_db]
    | stable_step
    | stable_leaf
    | progress cbv zeta
    | progress cbn [cm_enter cm_exit folderlock TemporaryDirectory]
    | unfold_head ].

(** Running a small computation to its end, case by case. *)
Ltac mexec :=
  autounfold with orchestrator;
  unfold linkfiles_setitem, bind, gets, modify, emit, raise_errno, raise, ret;
  simpl;
  repeat case_match; simplify_eq/=.

Section Phases.

Context (env : Env).

(** The table is only ever extended by keys it does not have. *)
Lemma add_candidate_grows req : stable grows (add_candidate req).
Proof.
  intros s r s'. unfold add_candidate. mexec; intros [= <- <-]; try reflexivity.
  apply grows_new_key.
  match goal with H : _ && _ = true |- _ => apply andb_prop in H as [_ H] end.
  by apply negb_true_iff.
Qed.

Lemma detect_fort56_grows model : stable grows (detect_fort56 env model).
Proof.
  intros s r s'. unfold detect_fort56. mexec; intros [= <- <-];
    try (apply grows_same_self; reflexivity).
  match goal with
  | H : dict_mem _ (linkfiles (self ?s0)) = false |- grows ?s0 (set_self _ ?s1) =>
      transitivity s1;
      [ apply grows_same_self; reflexivity
      | apply (grows_new_key s1 "fort.56" H) ]
  end.
Qed.

End Phases.

#[global] Hint Resolve add_candidate_grows detect_fort56_grows : stable_db.
#[global] Hint Unfold add_candidate detect_fort56 linkfiles_setitem tempdir : orchestrator.

Section PhaseEffects.

Context (env : Env).

Lemma cleanup_emits model outdir outfile :
  stable (emits (λ e, staging_event e = true))
         (_remove_potential_outfiles model outdir outfile).
Proof. stable_more. Qed.

Lemma copy_emits model modelpath rundir :
  stable (emits (λ e, staging_event e = true))
         (_copy_to_rundir env model modelpath rundir).
Proof. stable_more. Qed.

Lemma check_emits model rundir :
  stable (emits (λ e, staging_event e = true)) (_check_files model rundir).
Proof. stable_more. Qed.

Lemma run_emits model rundir :
  stable (emits (λ e, runner_event e = true)) (_run env model rundir).
Proof. stable_more. Qed.

Lemma extract_emits model rundir outdir outfile :
  stable (emits (λ e, extract_event e = true))
         (_extract_outfiles model rundir outdir outfile).
Proof. stable_more. Qed.





End PhaseEffects.

(** *** Sequencing *)

Lemma bind_raises {A B} (m : M A) (k : A → M B) s e s' :
  m s = (inl e, s') → bind m k s = (inl e, s').
Proof. intros H. unfold bind. by rewrite H. Qed.

Lemma bind_returns {A B} (m : M A) (k : A → M B) s a s1 :
  m s = (inr a, s1) → bind m k s = k a s1.
Proof. intros H. unfold bind. by rewrite H. Qed.

Lemma bind_inv {A B} (m : M A) (k : A → M B) s r s' :
  bind m k s = (r, s') →
  (∃ e, m s = (inl e, s') ∧ r = inl e) ∨ (∃ a s1, m s = (inr a, s1) ∧ k a s1 = (r, s')).
Proof.
  unfold bind. destruct (m s) as [[e|a] s1].
  - intros [= <- <-]. left. eauto.
  - intros H. right. eauto.
Qed.

Lemma path_join_absolute (p : PurePath.t) (f : string) :
  PurePath.absolute p = true → PurePath.absolute (p // f) = true.
Proof.
  intros H. unfold PurePath.join.
  destruct (PurePath.absolute (PurePath.parse f)) eqn:E; simpl; done.
Qed.

Lemma to_string_absolute (p : PurePath.t) :
  PurePath.absolute p = true → Str.starts_with_slash (PurePath.to_string p) = true.
Proof. intros H. unfold PurePath.to_string. rewrite H. reflexivity. Qed.

Lemma check_files_spec (model : string) (rundir : PurePath.t) (s : state) :
  _check_files model rundir s =
    match first_missing s rundir model with
    | Some f => (inl (FileNotFoundError (PurePath.to_string (rundir // f) +:+ " not found")), s)
    | None => (inr tt, s)
    end.
Proof.
  unfold _check_files, first_missing, required_files, required_names.
  unfold for_, format, bind, path_exists, gets, raise, ret. simpl.
  repeat (match goal with
          | |- context [FS.exists_ ?a ?b ?c] => destruct (FS.exists_ a b c); simpl
          end); reflexivity.
Qed.

(* ===================================================================== *)
(** ** The filesystem: path resolution *)
(* ===================================================================== *)

Module FSFacts.
Import FS.

Lemma walk_nil (links : nat) (fs : FS.t) (follow : bool) (cur : path) : walk links fs follow cur [] = inr cur.
Proof. by destruct links. Qed.

Lemma walk_cons (links : nat) (fs : FS.t) (follow : bool) (cur : path) (seg : string)
  (rest : list string) :
  walk links fs follow cur (seg :: rest) =
    if String.eqb seg ".." then
      if is_dir_at fs (parent cur) then walk links fs follow (parent cur) rest
      else inl ENOENT
    else
      match fs !! (cur ++ [seg]) with
      | None => if is_nil rest then inr (cur ++ [seg]) else inl ENOENT
      | Some (File _) => if is_nil rest then inr (cur ++ [seg]) else inl ENOTDIR
      | Some Dir => walk links fs follow (cur ++ [seg]) rest
      | Some (Link tgt) =>
          if is_nil rest && negb follow then inr (cur ++ [seg])
          else match links with
               | O => inl ELOOP
               | S links' =>
                   walk links' fs follow
                        (if PurePath.absolute (PurePath.parse tgt) then [] else cur)
                        (PurePath.parts (PurePath.parse tgt) ++ rest)
               end
      end.
Proof. by destruct links. Qed.

Lemma is_dir_at_weaken (fs' fs : FS.t) (q : path) :
  fs' ⊆ fs → is_dir_at fs' q = true → is_dir_at fs q = true.
Proof.
  intros Hsub. unfold is_dir_at, node_at. destruct q as [|x q]; [done|]. simpl.
  destruct (fs' !! (x :: q)) as [n|] eqn:E; simpl; [|done].
  by rewrite (lookup_weaken _ _ _ _ E Hsub).
Qed.

(** Resolution that ends on an entry of a part of the filesystem ends on
    the same entry in the whole of it. *)
Lemma walk_weaken (fs' fs : FS.t) (follow : bool) (links : nat) :
  fs' ⊆ fs →
  ∀ (rest : list string) (cur q : path),
    walk links fs' follow cur rest = inr q →
    is_Some (fs' !! q) →
    walk links fs follow cur rest = inr q.
Proof.
  intros Hsub. induction links as [links IHl] using lt_wf_ind.
  induction rest as [|seg rest IH]; intros cur q.
  - by rewrite !walk_nil.
  - rewrite !walk_cons. destruct (String.eqb seg "..").
    + destruct (is_dir_at fs' (parent cur)) eqn:Ed; [|done].
      rewrite (is_dir_at_weaken _ _ _ Hsub Ed). apply IH.
    + destruct (fs' !! (cur ++ [seg])) as [[c| |tgt]|] eqn:E.
      * rewrite (lookup_weaken _ _ _ _ E Hsub). done.
      * rewrite (lookup_weaken _ _ _ _ E Hsub). apply IH.
      * rewrite (lookup_weaken _ _ _ _ E Hsub).
        destruct (is_nil rest && negb follow); [done|].
        destruct links as [|links']; [done|]. apply IHl. lia.
      * destruct (is_nil rest); [|done].
        intros [= <-] [n Hn]. congruence.
Qed.

(** Once the entry that a path names is removed, the path leads to no
    entry. *)
Lemma walk_delete (fs : FS.t) (links : nat) :
  ∀ (rest : list string) (cur q : path),
    walk links fs false cur rest = inr q →
    walk links (delete q fs) true cur rest = inr q
    ∨ ∃ e, walk links (delete q fs) true cur rest = inl e.
Proof.
  induction links as [links IHl] using lt_wf_ind.
  induction rest as [|seg rest IH]; intros cur q.
  - rewrite !walk_nil. by left.
  - rewrite !walk_cons. destruct (String.eqb seg "..").
    + destruct (is_dir_at fs (parent cur)); [|done]. intros Hw.
      destruct (is_dir_at (delete q fs) (parent cur)); [by apply IH | right; eauto].
    + destruct (decide (cur ++ [seg] = q)) as [->|Hne].
      * intros _. rewrite lookup_delete_eq.
        destruct (is_nil rest); [by left | right; eauto].
      * rewrite lookup_delete_ne by done.
        destruct (fs !! (cur ++ [seg])) as [[c| |tgt]|].
        -- destruct (is_nil rest); [|done]. intros [= ?]. done.
        -- apply IH.
        -- destruct (is_nil rest) eqn:En; simpl.
           ++ intros [= ?]. done.
           ++ destruct links as [|links']; [done|]. apply IHl. lia.
        -- destruct (is_nil rest); [|done]. intros [= ?]. done.
Qed.

(** A path that runs through a prefix runs through a directory there. *)
Lemma walk_app (fs : FS.t) (links : nat) :
  ∀ (a b : list string) (cur q : path),
    is_dir_at fs cur = true →
    b ≠ [] →
    walk links fs true cur (a ++ b) = inr q →
    ∃ q', walk links fs true cur a = inr q' ∧ is_dir_at fs q' = true.
Proof.
  induction links as [links IHl] using lt_wf_ind.
  induction a as [|seg a IH]; intros b cur q Hcur Hb.
  - rewrite walk_nil. eauto.
  - assert (is_nil (a ++ b) = false) as Hnil by (destruct a, b; done).
    simpl. rewrite !walk_cons, Hnil. destruct (String.eqb seg "..").
    + destruct (is_dir_at fs (parent cur)) eqn:Ed; [|done]. by apply IH.
    + destruct (fs !! (cur ++ [seg])) as [[c| |tgt]|] eqn:E; try done.
      * apply IH; [|done]. unfold is_dir_at, node_at.
        destruct (cur ++ [seg]) eqn:E'; [done | by rewrite E].
      * simpl negb. rewrite !andb_false_r.
        destruct links as [|links']; [done|].
        rewrite app_assoc. apply IHl; [lia | | done].
        by destruct (PurePath.absolute _).
Qed.

Lemma is_file_weaken (fs' fs : FS.t) (cwd : path) (p : PurePath.t) :
  fs' ⊆ fs → is_file fs' cwd p = true → is_file fs cwd p = true.
Proof.
  intros Hsub. unfold is_file, stat, locate.
  destruct (walk max_links fs' true [] (anchor cwd p)) as [e|q] eqn:Ew; [done|].
  destruct q as [|x q]; [done|]. cbn [node_at].
  destruct (fs' !! (x :: q)) as [n|] eqn:E; [|done].
  rewrite (walk_weaken _ _ _ _ Hsub _ _ _ Ew) by eauto. cbn [node_at].
  by rewrite (lookup_weaken _ _ _ _ E Hsub).
Qed.

Lemma unlink_submap (fs fs' : FS.t) (cwd : path) (p : PurePath.t) :
  unlink fs cwd p = inr fs' → fs' ⊆ fs.
Proof.
  unfold unlink. destruct (locate fs cwd false p) as [e|q]; [done|].
  destruct (node_at fs q) as [[]|]; intros [= <-]; apply delete_subseteq.
Qed.

Lemma unlink_is_file (fs fs' : FS.t) (cwd : path) (p : PurePath.t) :
  unlink fs cwd p = inr fs' → is_file fs' cwd p = false.
Proof.
  unfold unlink, locate.
  destruct (walk max_links fs false [] (anchor cwd p)) as [e|q] eqn:Ew; [done|].
  intros Hu. assert (fs' = delete q fs) as ->.
  { destruct (node_at fs q) as [[]|]; by simplify_eq. }
  unfold is_file, stat, locate.
  destruct (walk_delete _ _ _ _ _ Ew) as [-> | [e ->]]; [|done].
  destruct q as [|x q]; [done|]. cbn [node_at]. by rewrite lookup_delete_eq.
Qed.

(** Nothing is found below what is not a directory. *)
Lemma is_file_below (fs : FS.t) (cwd : path) (p : PurePath.t) (name : string) :
  is_dir fs cwd p = false →
  PurePath.absolute (PurePath.parse name) = false →
  PurePath.parts (PurePath.parse name) ≠ [] →
  is_file fs cwd (p // name) = false.
Proof.
  intros Hd Hrel Hparts. unfold is_file, stat, locate.
  destruct (walk max_links fs true [] (anchor cwd (p // name))) as [e|q] eqn:Ew; [done|].
  exfalso.
  assert (anchor cwd (p // name) = anchor cwd p ++ PurePath.parts (PurePath.parse name)) as Ea.
  { unfold anchor, PurePath.join. rewrite Hrel. simpl.
    destruct (PurePath.absolute p); [done | by rewrite app_assoc]. }
  rewrite Ea in Ew.
  destruct (walk_app fs max_links _ _ [] q eq_refl Hparts Ew) as (q' & Hq' & Hdir).
  unfold is_dir, stat, locate in Hd. rewrite Hq' in Hd.
  unfold is_dir_at in Hdir. by destruct (node_at fs q') as [[]|].
Qed.

End FSFacts.

(* ===================================================================== *)
(** ** Strings and pure paths *)
(* ===================================================================== *)

Module StrFacts.
Import Str.

Lemma append_nil (t : string) : "" +:+ t = t.
Proof. reflexivity. Qed.

Lemma append_cons (c : ascii) (s t : string) : String c s +:+ t = String c (s +:+ t).
Proof. reflexivity. Qed.

Lemma keep_part_cons (c : ascii) (piece : string) :
  PurePath.keep_part piece = true → PurePath.keep_part (String c piece) = true.
Proof.
  unfold PurePath.keep_part. destruct piece as [|c' piece]; [done|].
  intros _. simpl. by destruct (Ascii.eqb c "."%char).
Qed.

(** The last piece of a text that ends in a proper file-name suffix is
    kept by the parser. *)
Lemma split_slash_suffix (t : string) :
  split_slash t = [t] → PurePath.keep_part t = true →
  ∀ s : string, ∃ pieces piece,
    split_slash (s +:+ t) = pieces ++ [piece] ∧ PurePath.keep_part piece = true.
Proof.
  intros Ht Hk. induction s as [|c s (pieces & piece & IH & Hp)].
  - rewrite append_nil. exists [], t. by rewrite Ht.
  - rewrite append_cons. simpl. destruct (bool_decide (c = slash)).
    + exists ("" :: pieces), piece. by rewrite IH.
    + rewrite IH. destruct pieces as [|p0 pieces]; simpl.
      * exists [], (String c piece). split; [done | by apply keep_part_cons].
      * exists (String c p0 :: pieces), piece. done.
Qed.

Lemma parts_suffix (s t : string) :
  split_slash t = [t] → PurePath.keep_part t = true →
  PurePath.parts (PurePath.parse (s +:+ t)) ≠ [].
Proof.
  intros Ht Hk. destruct (split_slash_suffix t Ht Hk s) as (pieces & piece & E & Hp).
  unfold PurePath.parse. simpl. rewrite E, List.filter_app. simpl. rewrite Hp.
  by destruct (List.filter PurePath.keep_part pieces).
Qed.

Lemma starts_with_slash_app (s t : string) :
  starts_with_slash s = false → starts_with_slash t = false →
  starts_with_slash (s +:+ t) = false.
Proof. destruct s; [by rewrite append_nil | by rewrite append_cons]. Qed.

(** The pieces of a split hold no slash. *)
Lemma before_slash_piece (s : string) :
  Forall (λ piece, before_slash piece = piece) (split_slash s).
Proof.
  induction s as [|c s IH]; simpl.
  - by constructor.
  - destruct (bool_decide (c = slash)) eqn:Ec.
    + by constructor.
    + destruct (split_slash s) as [|piece pieces]; simpl.
      * constructor; [|done]. simpl. by rewrite Ec.
      * inversion IH as [|? ? Hp Hps]; subst. constructor; [|done].
        simpl. by rewrite Ec, Hp.
Qed.

Lemma before_slash_app (a x : string) :
  before_slash a = a → before_slash (a +:+ String slash x) = a.
Proof.
  induction a as [|c a IH]; [done|].
  rewrite append_cons. simpl.
  destruct (bool_decide (c = slash)); [done|].
  intros [= H]. by rewrite IH.
Qed.

Lemma before_slash_join (parts : list string) :
  Forall (λ piece, before_slash piece = piece) parts →
  before_slash (join_slash parts) = hd "" parts.
Proof.
  intros H. destruct H as [|a parts Ha Hps]; [done|].
  destruct parts as [|b parts]; simpl; [done|].
  by apply before_slash_app.
Qed.

(** What the code cuts out of a relative reference is the first segment
    of its path (and ["."] when the path has none). *)
Lemma first_segment (r : string) :
  PurePath.is_absolute (PurePath.parse r) = false →
  before_slash (PurePath.to_string (PurePath.parse r))
  = hd "." (PurePath.parts (PurePath.parse r)).
Proof.
  intros Hrel. unfold PurePath.to_string.
  unfold PurePath.is_absolute in Hrel. rewrite Hrel.
  assert (Forall (λ piece, before_slash piece = piece)
                 (PurePath.parts (PurePath.parse r))) as Hf.
  { unfold PurePath.parse. simpl.
    apply Forall_forall. intros x Hx.
    apply list_elem_of_In, List.filter_In in Hx as [Hx _].
    apply list_elem_of_In in Hx. revert x Hx.
    apply Forall_forall, before_slash_piece. }
  destruct (PurePath.parts (PurePath.parse r)) as [|a l] eqn:E; [done|].
  rewrite before_slash_join by done. done.
Qed.

End StrFacts.

(* ===================================================================== *)
(** ** The link table: construction and overrides *)
(* ===================================================================== *)

(** C9. A freshly constructed instance has exactly four entries in its
    link table: [fort.19] from [fort.19], [fort.55] from [fort.55], and the
    two model-specific entries [{model}.5] and [{model}.7], each from the
    model path with the same extension.  A call [add_link linkfrom linkto]
    always returns and leaves a table that maps the destination ([linkto],
    or [linkfrom] when [linkto] is omitted) to [linkfrom]: a previous entry
    under that key is overwritten in place, every other key keeps its
    entry, and nothing but the table changes. *)
Theorem C9_link_table (synspecpath : string) (v : Z) (o : Synspec)
    (linkfrom : string) (linkto : option string) (s : state) :
  Synspec_init synspecpath v = inr o →
  linkfiles o = [ ("fort.19", "fort.19"); ("fort.55", "fort.55");
                  ("{model}.5", "{modelpath}.5"); ("{model}.7", "{modelpath}.7") ]
  ∧ ∃ s', add_link linkfrom linkto s = (inr tt, s')
      ∧ (∀ k, dict_get (linkfiles (self s')) k
              = if String.eqb k (default linkfrom linkto) then Some linkfrom
                else dict_get (linkfiles (self s)) k)
      ∧ (linkfiles (self s')).*1
        = (if dict_mem (default linkfrom linkto) (linkfiles (self s))
           then (linkfiles (self s)).*1
           else (linkfiles (self s)).*1 ++ [default linkfrom linkto])
      ∧ version (self s') = version (self s)
      ∧ synspec (self s') = synspec (self s)
      ∧ fs s' = fs s ∧ trace s' = trace s.
Proof.
  intros Hinit. split.
  - unfold Synspec_init in Hinit. destruct (bool_decide (v ≠ 51%Z)); [done|].
    by injection Hinit as <-.
  - eexists. split; [reflexivity|]. simpl.
    assert (match linkto with Some l => l | None => linkfrom end = default linkfrom linkto)
      as -> by by destruct linkto.
    split; [intros k; apply dict_get_set|].
    split; [apply dict_keys_set | done].
Qed.

Lemma C9_link_table_witness :
  Synspec_init "synspec" 51 = inr Demo.fresh
  ∧ dict_get (linkfiles (self (add_link "linelist" (Some "fort.19")
                                 (Demo.world (Demo.files "" "" "ok"))).2)) "fort.19"
    = Some "linelist".
Proof.
  split; [reflexivity|].
  destruct (C9_link_table "synspec" 51 Demo.fresh "linelist" (Some "fort.19")
              (Demo.world (Demo.files "" "" "ok")) eq_refl)
    as (_ & s' & Hrun & Hget & _).
  rewrite Hrun. simpl. rewrite Hget. reflexivity.
Defined.

(* ===================================================================== *)
(** ** Detection of the auxiliary configuration file *)
(* ===================================================================== *)

Ltac msimp :=
  cbn [fs cwd self trace held tmp_names log_event set_fs set_self set_held
       set_tmp_names fst snd].

(** Unfolding of a computation down to matches on what it reads. *)
Ltac munfold :=
  repeat progress
    (autounfold with orchestrator;
     unfold linkfiles_setitem, bind, gets, modify, emit, raise_errno, raise, ret;
     msimp).

(** C3. When the link table has no entry for [fort.56] at the time of the
    detection, the configuration descriptor (the source of the [fort.55]
    entry, with the model name substituted) is read and decoded for
    [ichemc].  With a non-zero flag and [fort.56] a file on disk, the entry
    [fort.56] mapped from [fort.56] is added and the run goes on to link
    the table that holds it; with a non-zero flag and no such file, the
    detection raises [FileNotFoundError] with a message that names
    [fort.56], and so does the body of the run; with a zero flag nothing
    is added.  When the table already has an entry for [fort.56], the
    descriptor is not consulted at all: the detection returns at once,
    with no effect. *)
Theorem C3_fort56_detection (env : Env) (model : string) (s : state)
    (template cofigfile text : string) (config : Config) :
  dict_get (linkfiles (self s)) "fort.55" = Some template →
  Str.format [("model", model)] template = Some cofigfile →
  FS.read (fs s) (cwd s) (PurePath.parse cofigfile) = inr text →
  decode_55 env text = inr config →
  let consulted := log_event (EvOpenRead (PurePath.to_string (PurePath.parse cofigfile))) s in
  let added :=
    set_self (set_linkfiles (dict_set (linkfiles (self s)) "fort.56" "fort.56") (self s))
             consulted in
  (* the detection itself *)
  detect_fort56 env model s =
    (if dict_mem "fort.56" (linkfiles (self s)) then (inr tt, s)
     else if bool_decide (ichemc config = 0%Z) then (inr tt, consulted)
     else if FS.is_file (fs s) (cwd s) (PurePath.parse "fort.56") then (inr tt, added)
     else (inl (FileNotFoundError "Need for fort.56 detected but not found"), consulted))
  (* the entry that was added *)
  ∧ dict_get (linkfiles (self added)) "fort.56" = Some "fort.56"
  (* what the run does with the outcome *)
  ∧ ∀ (modelpath outdir rundir : PurePath.t) (outfile : string) (s0 s1 : state),
      _remove_potential_outfiles model outdir outfile s0 = (inr tt, s1) →
      discover_links env model modelpath s1 = (inr tt, s) →
      run_body env model modelpath outdir outfile rundir s0 =
        match detect_fort56 env model s with
        | (inl e, s2) => (inl e, s2)
        | (inr _, s2) =>
            (link_files model modelpath rundir ;;;
             _check_files model rundir ;;;
             _run env model rundir ;;;
             _extract_outfiles model rundir outdir outfile) s2
        end.
Proof.
  intros Ht Hf Hr Hd consulted added. split; [|split].
  - unfold detect_fort56. munfold. destruct (dict_mem "fort.56" (linkfiles (self s))); [done|].
    rewrite Ht. msimp. rewrite Hf. msimp. rewrite Hr. msimp. rewrite Hd. msimp.
    repeat case_bool_decide; try done; msimp;
      by destruct (FS.is_file (fs s) (cwd s) (PurePath.parse "fort.56")).
  - simpl. rewrite dict_get_set. reflexivity.
  - intros modelpath outdir rundir outfile s0 s1 Hclean Hdisc.
    unfold run_body, _copy_to_rundir.
    rewrite (bind_returns _ _ _ _ _ Hclean).
    unfold bind at 1. unfold bind at 1. rewrite Hdisc.
    unfold bind at 1.
    destruct (detect_fort56 env model s) as [[e|[]] s2]; reflexivity.
Qed.

Lemma C3_fort56_detection_witness :
  let s := Demo.world (Demo.files "chem" "" "ok") in
  dict_get (linkfiles (self s)) "fort.55" = Some "fort.55"
  ∧ Str.format [("model", "m")] "fort.55" = Some "fort.55"
  ∧ FS.read (fs s) (cwd s) (PurePath.parse "fort.55") = inr "chem"
  ∧ decode_55 Demo.env "chem" = inr (mkConfig 1)
  ∧ detect_fort56 Demo.env "m" s
    = (inl (FileNotFoundError "Need for fort.56 detected but not found"),
       log_event (EvOpenRead "fort.55") s).
Proof.
  intros s.
  assert (dict_get (linkfiles (self s)) "fort.55" = Some "fort.55") as H1 by reflexivity.
  assert (Str.format [("model", "m")] "fort.55" = Some "fort.55") as H2 by reflexivity.
  assert (FS.read (fs s) (cwd s) (PurePath.parse "fort.55") = inr "chem") as H3
    by (vm_compute; reflexivity).
  assert (decode_55 Demo.env "chem" = inr (mkConfig 1)) as H4 by reflexivity.
  repeat (split; [assumption|]).
  rewrite (proj1 (C3_fort56_detection Demo.env "m" s "fort.55" "fort.55" "chem"
                    (mkConfig 1) H1 H2 H3 H4)).
  vm_compute. reflexivity.
Defined.

(* ===================================================================== *)
(** ** Verification of the required files *)
(* ===================================================================== *)

(** C5. Inside the body of a run, the check of the required files comes
    after the pre-run cleanup and the staging (discovery, merging of the
    discovered entries, linking) and before the runner.  It looks in the
    run directory for [fort.19], [fort.55], [{model}.5] and [{model}.7]
    with the model name substituted; when one of them does not exist, the
    run raises [FileNotFoundError] naming the expected path in the run
    directory, which is an absolute path when the run directory is, and
    ends in the state the staging left: the solver is not invoked, no
    process having been spawned up to there.  When all four exist, the run
    goes on with the runner. *)
Theorem C5_required_files_checked (env : Env) (model : string)
    (modelpath outdir rundir : PurePath.t) (outfile : string) (s s1 : state)
    (r1 : exn + unit) :
  (_remove_potential_outfiles model outdir outfile ;;;
   _copy_to_rundir env model modelpath rundir) s = (r1, s1) →
  (* nothing was spawned by the cleanup and the staging *)
  emits (λ e, is_spawn e = false) s s1
  (* the verdict of the check, and what the run does with it *)
  ∧ run_body env model modelpath outdir outfile rundir s =
      match r1 with
      | inl e => (inl e, s1)
      | inr _ =>
          match first_missing s1 rundir model with
          | Some f =>
              (inl (FileNotFoundError (PurePath.to_string (rundir // f) +:+ " not found")), s1)
          | None =>
              (_run env model rundir ;;; _extract_outfiles model rundir outdir outfile) s1
          end
      end
  (* the path that is named *)
  ∧ (∀ f, PurePath.absolute rundir = true →
          Str.starts_with_slash (PurePath.to_string (rundir // f)) = true).
Proof.
  intros Hpre. split; [|split].
  - eapply emits_impl; [|eapply (stable_bind (emits (λ e, staging_event e = true)));
                          [apply cleanup_emits | intros ?; apply copy_emits | exact Hpre]].
    intros e He. by destruct e as [[]| | | | | | | | | | |].
  - unfold run_body. unfold bind in Hpre |- *.
    destruct (_remove_potential_outfiles model outdir outfile s) as [[e|[]] s0];
      [by simplify_eq|].
    destruct (_copy_to_rundir env model modelpath rundir s0) as [[e|[]] s2];
      simplify_eq; [done|].
    rewrite check_files_spec. by destruct (first_missing s1 rundir model).
  - intros f Habs. by apply to_string_absolute, path_join_absolute.
Qed.

Lemma create_at (fs : FS.t) (cwd : FS.path) (p : PurePath.t) (q : FS.path) :
  FS.locate fs cwd true p = inr q → FS.node_at fs q = None →
  FS.create fs cwd p = inr (<[q := FS.File ""]> fs, q).
Proof. intros Hq Hn. unfold FS.create. by rewrite Hq, Hn. Qed.

Lemma C5_required_files_checked_witness :
  let s := Demo.world (Demo.without "fort.19" (Demo.files "" "" "ok")) in
  let w := PurePath.of_location ["w"] in
  let pre := (_remove_potential_outfiles "m" w "m" ;;;
              _copy_to_rundir Demo.env "m" (PurePath.of_location ["w"; "m"]) w) s in
  pre = (pre.1, pre.2)
  ∧ PurePath.absolute w = true
  ∧ run_body Demo.env "m" (PurePath.of_location ["w"; "m"]) w "m" w s
    = (inl (FileNotFoundError "/w/fort.19 not found"), pre.2)
  ∧ Str.starts_with_slash (PurePath.to_string (w // "fort.19")) = true.
Proof.
  intros s w pre.
  assert (pre = (pre.1, pre.2)) as Hpre by (by destruct pre).
  destruct (C5_required_files_checked Demo.env "m" (PurePath.of_location ["w"; "m"])
              w w "m" s pre.2 pre.1 Hpre) as (_ & Hrun & Habs).
  split; [exact Hpre|]. split; [reflexivity|]. split.
  - rewrite Hrun. vm_compute. reflexivity.
  - apply Habs. reflexivity.
Defined.

(* ===================================================================== *)
(** ** The runner *)
(* ===================================================================== *)

(** The claim C6 as the specification words it has the standard error of
    the solver bound to the log file.  It is not: on the demo world the
    process is spawned with its standard error inherited from the caller,
    and what the solver writes there reaches the console and not
    [fort.log]. *)
Lemma C6_counterexample :
  ¬ (∀ (env : Env) (model : string) (rundir : PurePath.t) (s s' : state) (r : exn + unit)
       (argv : list string) (stdin : string) (stdout stderr : redirect) (dir : string)
       (rc : option Z),
       _run env model rundir s = (r, s') →
       EvSpawn argv stdin stdout stderr dir rc ∈ trace s' →
       stdout = ToFile (PurePath.to_string (rundir // "fort.log"))
       ∧ stderr = ToFile (PurePath.to_string (rundir // "fort.log"))).
Proof.
  intros H.
  pose (s := Demo.world (Demo.files "" "" "bad")).
  pose (res := _run Demo.env "m" (PurePath.of_location ["w"]) s).
  assert (EvSpawn ["synspec"] "/w/m.5" (ToFile "/w/fort.log") Inherit "/w" (Some 1%Z)
            ∈ trace res.2) as Hin.
  { vm_compute. repeat constructor. }
  destruct (H Demo.env "m" (PurePath.of_location ["w"]) s res.2 res.1 _ _ _ _ _ _
              (surjective_pairing res) Hin) as [_ Herr].
  discriminate Herr.
Qed.

(** C6 (as amended). The runner first force-creates in the run directory
    the symbolic link [fort.8] to [{model}.7], then opens [{model}.5] of the
    run directory for reading and [fort.log] of the run directory for
    writing, and spawns the solver with no argument, its standard input
    bound to the former, its standard output bound to the latter and the
    run directory as its working directory.  The standard error of the
    solver is not redirected: it stays the one of the caller, and only what
    the solver writes to its standard output ends in [fort.log].  A
    non-zero exit status is raised to the caller as [CalledProcessError]
    with that status; a zero status makes the runner return. *)
Theorem C6_runner (env : Env) (model : string) (rundir : PurePath.t) (s : state)
    (q8 : FS.path) (text : string) (fs2 : FS.t) (qlog : FS.path) (out : Outcome) :
  let link := rundir // "fort.8" in
  let input := rundir // (model +:+ ".5") in
  let log := rundir // "fort.log" in
  let fs1 := <[q8 := FS.Link (model +:+ ".7")]> (fs s) in
  FS.locate (fs s) (cwd s) false link = inr q8 →
  FS.node_at (fs s) q8 ≠ Some FS.Dir →
  FS.read fs1 (cwd s) input = inr text →
  FS.create fs1 (cwd s) log = inr (fs2, qlog) →
  solver env (synspec (self s)) fs2 rundir text = Some out →
  ∃ s',
    _run env model rundir s =
      (if bool_decide (exit_status out = 0%Z) then inr tt
       else inl (CalledProcessError (exit_status out) [synspec (self s)]), s')
    ∧ trace s' = trace s ++
        [ EvSymlink (model +:+ ".7") (PurePath.to_string link);
          EvOpenRead (PurePath.to_string input);
          EvOpenWrite (PurePath.to_string log);
          EvSpawn [synspec (self s)] (PurePath.to_string input)
                  (ToFile (PurePath.to_string log)) Inherit
                  (PurePath.to_string rundir) (Some (exit_status out));
          EvConsole Stderr (err_text out) ]
    ∧ fs s' = <[qlog := FS.File (out_text out)]> (fs_after out)
    ∧ self s' = self s ∧ cwd s' = cwd s.
Proof.
  intros link input log fs1 Hloc Hnode Hread Hcreate Hsolver.
  unfold _run. munfold. fold link input log.
  rewrite Hloc. msimp.
  destruct (FS.node_at (fs s) q8) as [[c| |t]|] eqn:En; try done; msimp;
    fold fs1; rewrite Hread; msimp; rewrite Hcreate; msimp; rewrite Hsolver; msimp;
    (eexists; split;
     [ destruct (bool_decide (exit_status out = 0%Z)); reflexivity
     | destruct (bool_decide (exit_status out = 0%Z)); msimp;
       rewrite <- !app_assoc; done ]).
Qed.

Lemma C6_runner_witness :
  let s := Demo.world (Demo.files "" "" "ok") in
  let w := PurePath.of_location ["w"] in
  let fs1 := <[["w"; "fort.8"] := FS.Link "m.7"]> (fs s) in
  let fs2 := <[["w"; "fort.log"] := FS.File ""]> fs1 in
  let out := mkOutcome 0 "solver log" ""
               (Demo.write_all ["w"]
                  [("fort.7", "spectrum"); ("fort.12", "identification");
                   ("fort.16", "widths"); ("fort.17", "continuum")] fs2) in
  FS.locate (fs s) (cwd s) false (w // "fort.8") = inr ["w"; "fort.8"]
  ∧ FS.node_at (fs s) ["w"; "fort.8"] ≠ Some FS.Dir
  ∧ FS.read fs1 (cwd s) (w // "m.5") = inr ""
  ∧ FS.create fs1 (cwd s) (w // "fort.log") = inr (fs2, ["w"; "fort.log"])
  ∧ solver Demo.env (synspec (self s)) fs2 w "" = Some out
  ∧ ∃ s', _run Demo.env "m" w s = (inr tt, s')
          ∧ trace s' =
              [ EvSymlink "m.7" "/w/fort.8"; EvOpenRead "/w/m.5"; EvOpenWrite "/w/fort.log";
                EvSpawn ["synspec"] "/w/m.5" (ToFile "/w/fort.log") Inherit "/w" (Some 0%Z);
                EvConsole Stderr "" ].
Proof.
  intros s w fs1 fs2 out.
  assert (FS.locate (fs s) (cwd s) false (w // "fort.8") = inr ["w"; "fort.8"]) as H1
    by (vm_compute; reflexivity).
  assert (FS.node_at (fs s) ["w"; "fort.8"] ≠ Some FS.Dir) as H2
    by (vm_compute; discriminate).
  assert (FS.read fs1 (cwd s) (w // "m.5") = inr "") as H3 by (vm_compute; reflexivity).
  assert (FS.create fs1 (cwd s) (w // "fort.log") = inr (fs2, ["w"; "fort.log"])) as H4
    by (apply create_at; vm_compute; reflexivity).
  assert (solver Demo.env (synspec (self s)) fs2 w "" = Some out) as H5
    by (vm_compute; reflexivity).
  repeat (split; [assumption|]).
  destruct (C6_runner Demo.env "m" w s ["w"; "fort.8"] "" fs2 ["w"; "fort.log"] out
              H1 H2 H3 H4 H5) as (s' & Hrun & Htrace & _).
  exists s'. split; [exact Hrun | exact Htrace].
Defined.

(* ===================================================================== *)
(** ** Staging: one link per entry of the table *)
(* ===================================================================== *)





(* ===================================================================== *)
(** ** Extraction of the outputs *)
(* ===================================================================== *)






Lemma mkdir_trace (p : PurePath.t) (s s' : state) (r : exn + unit) :
  path_mkdir_exist_ok p s = (r, s') → trace s' = trace s ++ [EvMkdir (PurePath.to_string p)].
Proof.
  unfold path_mkdir_exist_ok. munfold.
  destruct (FS.mkdir (fs s) (cwd s) p) as [[]|fs']; msimp;
    try destruct (FS.is_dir (fs s) (cwd s) p); by intros [= <- <-].
Qed.

Lemma stable_emits_impl {A} (P Q : event → Prop) (m : M A) :
  (∀ e, P e → Q e) → stable (emits P) m → stable (emits Q) m.
Proof. intros HPQ Hm s r s' H. eapply emits_impl; [exact HPQ | eapply Hm, H]. Qed.

Lemma before_extraction_emits (env : Env) (model : string)
    (modelpath outdir rundir : PurePath.t) (outfile : string) :
  stable (emits (λ e, is_copy e = false))
         (before_extraction env model modelpath outdir rundir outfile).
Proof.
  assert (∀ e, staging_event e = true → is_copy e = false) as H1
    by (intros e; by destruct e as [[]| | | | | | | | | | |]).
  assert (∀ e, runner_event e = true → is_copy e = false) as H2
    by (intros e; by destruct e as [[]| | | | | | | | | | |]).
  unfold before_extraction.
  apply stable_bind; [apply _ | eapply stable_emits_impl, cleanup_emits; exact H1 | intros _].
  apply stable_bind; [apply _ | eapply stable_emits_impl, copy_emits; exact H1 | intros _].
  apply stable_bind; [apply _ | eapply stable_emits_impl, check_emits; exact H1 | intros _].
  eapply stable_emits_impl, run_emits; exact H2.
Qed.

Lemma run_body_split (env : Env) (model : string)
    (modelpath outdir rundir : PurePath.t) (outfile : string) (s : state) :
  run_body env model modelpath outdir outfile rundir s =
    match before_extraction env model modelpath outdir rundir outfile s with
    | (inl e, s3) => (inl e, s3)
    | (inr _, s3) => _extract_outfiles model rundir outdir outfile s3
    end.
Proof.
  unfold run_body, before_extraction, bind.
  destruct (_remove_potential_outfiles model outdir outfile s) as [[e|[]] s0]; [done|].
  destruct (_copy_to_rundir env model modelpath rundir s0) as [[e|[]] s1]; [done|].
  destruct (_check_files model rundir s1) as [[e|[]] s2]; [done|].
  by destruct (_run env model rundir s2) as [[e|[]] s3].
Qed.



(* ===================================================================== *)
(** ** Stale outputs and failed runs *)
(* ===================================================================== *)

Lemma unlink_step (p : PurePath.t) (s s' : state) :
  path_unlink p s = (inr tt, s') →
  FS.is_file (fs s') (cwd s') p = false ∧ fs s' ⊆ fs s ∧ cwd s' = cwd s.
Proof.
  unfold path_unlink. munfold.
  destruct (FS.unlink (fs s) (cwd s) p) as [e|fs'] eqn:E; msimp; [done|].
  intros [= <-]. msimp. split; [by eapply FSFacts.unlink_is_file|].
  split; [by eapply FSFacts.unlink_submap | done].
Qed.

(** One turn of the cleanup loop removes the file it looks at and brings
    none back. *)
Lemma cleanup_step (outdir : PurePath.t) (outfile ext : string) (s s' : state)
    (r : exn + unit) :
  (let f := outdir // (outfile +:+ "." +:+ ext) in
   print ("Should delete " +:+ PurePath.to_string f) ;;;
   let* b := path_is_file f in
   if b then path_unlink f else ret tt) s = (r, s') →
  fs s' ⊆ fs s ∧ cwd s' = cwd s
  ∧ (r = inr tt → FS.is_file (fs s') (cwd s') (outdir // (outfile +:+ "." +:+ ext)) = false).
Proof.
  cbv zeta. unfold print, path_is_file, bind, emit, modify, gets. msimp.
  destruct (FS.is_file (fs s) (cwd s) (outdir // (outfile +:+ "." +:+ ext))) eqn:E.
  - destruct r as [e|[]].
    + intros H. assert (stable (λ a b, fs b ⊆ fs a ∧ cwd b = cwd a)
                          (path_unlink (outdir // (outfile +:+ "." +:+ ext)))) as Hs.
      { unfold path_unlink. intros a r b. munfold.
        destruct (FS.unlink (fs a) _ _) as [e'|fs'] eqn:E'; msimp; intros [= <- <-]; msimp;
          [done|]. split; [by eapply FSFacts.unlink_submap | done]. }
      destruct (Hs _ _ _ H) as [H1 H2]. msimp. done.
    + intros H. apply unlink_step in H as (H1 & H2 & H3). msimp. done.
  - intros [= <- <-]. msimp. done.
Qed.

Lemma cleanup_loop (outdir : PurePath.t) (outfile : string) (exts : list string)
    (s s' : state) :
  for_ exts (λ ext,
    let f := outdir // (outfile +:+ "." +:+ ext) in
    print ("Should delete " +:+ PurePath.to_string f) ;;;
    let* b := path_is_file f in
    if b then path_unlink f else ret tt) s = (inr tt, s') →
  fs s' ⊆ fs s ∧ cwd s' = cwd s
  ∧ ∀ ext, ext ∈ exts →
      FS.is_file (fs s') (cwd s') (outdir // (outfile +:+ "." +:+ ext)) = false.
Proof.
  revert s. induction exts as [|ext exts IH]; intros s; cbn [for_].
  - intros [= <-]. split; [done|]. split; [done|]. intros ext H. by apply elem_of_nil in H.
  - intros H. apply bind_inv in H as [(e & _ & ?) | ([] & s1 & H1 & H2)]; [done|].
    apply cleanup_step in H1 as (Hsub1 & Hcwd1 & Hfile1).
    apply IH in H2 as (Hsub2 & Hcwd2 & Hfiles).
    split; [by etrans|]. split; [congruence|].
    intros ext' [->|Hin]%elem_of_cons; [|by apply Hfiles].
    destruct (FS.is_file (fs s') (cwd s') _) eqn:E; [|done].
    rewrite Hcwd2 in E. apply (FSFacts.is_file_weaken _ _ _ _ Hsub2) in E.
    by rewrite (Hfile1 eq_refl) in E.
Qed.

(** After the pre-run cleanup none of the four data outputs is a file
    under the chosen name in the destination. *)
Lemma cleanup_post (model : string) (outdir : PurePath.t) (outfile : string) (s s' : state) :
  Str.starts_with_slash outfile = false →
  _remove_potential_outfiles model outdir outfile s = (inr tt, s') →
  ∀ ext, ext ∈ data_exts →
    FS.is_file (fs s') (cwd s') (outdir // (outfile +:+ "." +:+ ext)) = false.
Proof.
  intros Hrel. unfold _remove_potential_outfiles, path_is_dir.
  unfold bind at 1. unfold gets at 1.
  destruct (FS.is_dir (fs s) (cwd s) outdir) eqn:Ed; cbn [negb].
  - intros H. by apply cleanup_loop in H as (_ & _ & H).
  - intros [= <-] ext Hext. apply FSFacts.is_file_below; [done| |].
    + apply (StrFacts.starts_with_slash_app outfile ("." +:+ ext) Hrel).
      unfold data_exts in Hext.
      repeat (apply elem_of_cons in Hext as [->|Hext]; [done|]).
      by apply elem_of_nil in Hext.
    + unfold data_exts in Hext.
      repeat (apply elem_of_cons in Hext as [->|Hext]; [by apply StrFacts.parts_suffix|]).
      by apply elem_of_nil in Hext.
Qed.

(** *** Which exceptions a computation can raise *)

Lemma raises_ret {A} Q (a : A) : raises_only Q (ret a).
Proof. by intros s e s'. Qed.

Lemma raises_gets {A} Q (f : state → A) : raises_only Q (gets f).
Proof. by intros s e s'. Qed.

Lemma raises_modify Q (f : state → state) : raises_only Q (modify f).
Proof. by intros s e s'. Qed.

Lemma raises_emit Q (ev : event) : raises_only Q (emit ev).
Proof. by intros s e s'. Qed.

Lemma raises_raise {A} (Q : exn → Prop) (e : exn) : Q e → raises_only Q (@raise A e).
Proof. by intros H s e' s' [= <- <-]. Qed.

Lemma raises_bind {A B} Q (m : M A) (k : A → M B) :
  raises_only Q m → (∀ a, raises_only Q (k a)) → raises_only Q (bind m k).
Proof.
  intros Hm Hk s e s' H. apply bind_inv in H as [(e' & H & [= <-]) | (a & s1 & _ & H)].
  - eapply Hm, H.
  - eapply Hk, H.
Qed.

Lemma raises_for {A} Q (xs : list A) (body : A → M unit) :
  (∀ x, raises_only Q (body x)) → raises_only Q (for_ xs body).
Proof.
  intros Hb. induction xs as [|x xs IH]; cbn [for_].
  - apply raises_ret.
  - apply raises_bind; [apply Hb | intros _; apply IH].
Qed.

Lemma not_solver_failure_errno (e : FS.errno) (w : string) :
  not_solver_failure (exn_of_errno e w).
Proof. by destruct e. Qed.

Ltac raises_step :=
  lazymatch goal with
  | |- raises_only _ (ret _) => apply raises_ret
  | |- raises_only _ (raise_errno _ _) => apply raises_raise, not_solver_failure_errno
  | |- raises_only _ (raise _) => apply raises_raise; exact I
  | |- raises_only _ (gets _) => apply raises_gets
  | |- raises_only _ (modify _) => apply raises_modify
  | |- raises_only _ (emit _) => apply raises_emit
  | |- raises_only _ (bind _ _) => apply raises_bind; [| intros ?]
  | |- raises_only _ (for_ _ _) => apply raises_for; intros ?
  | |- raises_only _ (match ?x with _ => _ end) => destruct x
  | |- raises_only _ (if ?x then _ else _) => destruct x
  | |- raises_only _ ?m => let h := head_of m in progress unfold h
  end.

Lemma cleanup_raises (model : string) (outdir : PurePath.t) (outfile : string) :
  raises_only not_solver_failure (_remove_potential_outfiles model outdir outfile).
Proof. repeat first [raises_step | progress cbv zeta]. Qed.

Lemma extract_raises (model : string) (rundir outdir : PurePath.t) (outfile : string) :
  raises_only not_solver_failure (_extract_outfiles model rundir outdir outfile).
Proof. repeat first [raises_step | progress cbv zeta]. Qed.

(* ===================================================================== *)
(** ** The frame of a run: set-up, provider of the run directory, exit *)
(* ===================================================================== *)

Lemma path_resolve_inv (p : PurePath.t) (s s' : state) (r : exn + PurePath.t) :
  path_resolve p s = (r, s') →
  s' = s ∧ match r with
           | inl e => not_solver_failure e
           | inr p' => ∃ q, FS.resolve (fs s) (cwd s) p = Some q ∧ p' = PurePath.of_location q
           end.
Proof.
  unfold path_resolve. munfold.
  destruct (FS.resolve (fs s) (cwd s) p) as [q|]; intros [= <- <-]; split; eauto.
  exact I.
Qed.

Lemma mkdtemp_emits (names : list string) :
  stable (emits (λ e, frame_event e = true)) (mkdtemp names).
Proof. induction names as [|n names IH]; simpl; stable_more. Qed.

Lemma mkdtemp_raises (names : list string) :
  raises_only not_solver_failure (mkdtemp names).
Proof.
  induction names as [|n names IH]; simpl; [by apply raises_raise|].
  repeat first [ exact IH | raises_step | progress cbv zeta ].
Qed.

(** The [with] block on a directory lock, in one equation. *)
Lemma with_folderlock (p : PurePath.t) (lockfn : string) (body : PurePath.t → M unit)
    (s : state) :
  let lock := PurePath.to_string (p // lockfn) in
  let s1 := log_event (EvAcquire lock) s in
  with_ (folderlock p lockfn) body s =
    if bool_decide (lock ∈ held s) then (inl (Busy lock), s1)
    else
      let res := body p (set_held (lock :: held s) s1) in
      (res.1, set_held (release lock (held res.2)) (log_event (EvRelease lock) res.2)).
Proof.
  intros lock s1. unfold with_, folderlock. cbn [cm_enter cm_exit]. munfold.
  fold lock. destruct (bool_decide (lock ∈ held s)); [done|]. msimp. fold s1.
  by destruct (body p (set_held (lock :: held s) s1)) as [[e|[]] s2].
Qed.


(** The exit of the temporary directory. *)
Lemma tempdir_exit (d : string) (s s' : state) (r : exn + unit) :
  cm_exit TemporaryDirectory d s = (r, s') →
  trace s' = trace s ++ [EvRmtree d] ∧ fs s' ⊆ fs s
  ∧ self s' = self s ∧ cwd s' = cwd s ∧ held s' = held s
  ∧ match r with
    | inl e => not_solver_failure e ∧ fs s' = fs s
    | inr _ => True
    end.
Proof.
  cbn [cm_exit TemporaryDirectory]. munfold. unfold rmtree_target. msimp.
  destruct (FS.locate (fs s) (cwd s) false (PurePath.parse d)) as [e|q]; msimp.
  { destruct e; intros [= <- <-]; msimp; done. }
  destruct (FS.node_at (fs s) q) as [[c| |t]|]; msimp.
  - by intros [= <- <-].
  - intros [= <- <-]. msimp. repeat split; try done.
    unfold FS.rmtree. apply map_filter_subseteq.
  - destruct (FS.stat (fs s) (cwd s) (PurePath.parse d)) as [e|n]; msimp;
      [destruct e|]; by intros [= <- <-].
  - by intros [= <- <-].
Qed.

(** A call of [run] either stops in its set-up, with an exception that is
    not the failure of the solver and no effect but those of the frame, or
    runs the body once, between effects of the frame, and ends as the
    body does, unless the removal of the temporary directory raises: the
    call then ends on that exception, which is not the failure of the
    solver. *)
Lemma run_inv (env : Env) (model : string) (rundir outdir : option string)
    (outfile : option string) (s s' : state) (r : exn + unit) :
  run env model rundir outdir outfile s = (r, s') →
  (∃ e, r = inl e ∧ not_solver_failure e ∧ emits (λ e, frame_event e = true) s s')
  ∨ ∃ (modelpath outdir' rundir' : PurePath.t) (s0 s2 : state) (rb : exn + unit),
      run_body env (PurePath.name modelpath) modelpath outdir'
               (default (PurePath.name modelpath) outfile) rundir' s0 = (rb, s2)
      ∧ (r = rb ∨ ∃ e, r = inl e ∧ not_solver_failure e)
      ∧ emits (λ e, frame_event e = true) s s0
      ∧ emits (λ e, frame_event e = true) s2 s'
      ∧ fs s' ⊆ fs s2 ∧ self s' = self s2 ∧ cwd s' = cwd s2
      ∧ (∃ qm, FS.resolve (fs s) (cwd s) (PurePath.parse model) = Some qm
               ∧ modelpath = PurePath.of_location qm)
      ∧ ∃ sR q, emits (λ e, frame_event e = true) s sR
                ∧ FS.resolve (fs sR) (cwd sR) (destination rundir outdir rundir' s) = Some q
                ∧ outdir' = PurePath.of_location q.
Proof.
  intros H. unfold run in H.
  apply bind_inv in H as [(e & H & ->) | (modelpath & sA & H & K)].
  { apply path_resolve_inv in H as [-> H]. left. exists e. split; [done|].
    split; [done | reflexivity]. }
  apply path_resolve_inv in H as [-> Hmodel]. cbv zeta in K.
  assert (∀ o : option string,
            match o with Some o0 => o0 | None => PurePath.name modelpath end
            = default (PurePath.name modelpath) o) as Hdef by (by intros []).
  destruct rundir as [rd|].
  - (* a run directory of the caller, under the lock *)
    apply bind_inv in K as [(e & H & ->) | (rundir' & sB & H & K)].
    { apply path_resolve_inv in H as [-> H]. left. exists e. split; [done|].
      split; [done | reflexivity]. }
    apply path_resolve_inv in H as [-> _].
    apply bind_inv in K as [(e & H & ->) | ([] & sC & H & K)].
    { left. exists e. split; [done|]. split.
      - revert H. assert (raises_only not_solver_failure (path_mkdir_exist_ok rundir'))
          as Hr by (repeat raises_step). apply Hr.
      - apply mkdir_trace in H. exists [EvMkdir (PurePath.to_string rundir')].
        split; [done | by repeat constructor]. }
    assert (emits (λ e, frame_event e = true) s sC) as HsC.
    { apply mkdir_trace in H. exists [EvMkdir (PurePath.to_string rundir')].
      split; [done | by repeat constructor]. }
    apply bind_inv in K as [(e & H' & ->) | (outdir' & sD & H' & K)].
    { apply path_resolve_inv in H' as [-> H']. left. exists e. done. }
    apply path_resolve_inv in H' as [-> (qd & Hqd & ->)].
    rewrite with_folderlock in K. cbv zeta in K. rewrite Hdef in K.
    destruct (bool_decide _) in K.
    + injection K as <- <-. left. eexists. split; [done|]. split; [exact I|].
      etrans; [exact HsC|]. by apply emits_log_event.
    + injection K as <- <-. right.
      eexists modelpath, _, rundir', _, _, _. split; [apply surjective_pairing|].
      split; [by left|].
      split; [|split; [|split; [done|split; [done|split; [done|split; [exact Hmodel|]]]]]].
      * etrans; [|apply emits_set_held]. etrans; [exact HsC|]. by apply emits_log_event.
      * etrans; [|apply emits_set_held]. by apply emits_log_event.
      * exists sC, qd. split; [exact HsC|]. split; [|done].
        unfold destination. by destruct outdir.
  - (* a temporary directory *)
    apply bind_inv in K as [(e & H & ->) | (outdir0 & sB & H & K)].
    { destruct outdir; by injection H. }
    assert (sB = s ∧ outdir0 = destination None outdir (PurePath.of_location []) s)
      as [-> ->] by (destruct outdir; by injection H as <- <-).
    apply bind_inv in K as [(e & H' & ->) | (outdir' & sD & H' & K)].
    { apply path_resolve_inv in H' as [-> H']. left. exists e. split; [done|].
      split; [done | reflexivity]. }
    apply path_resolve_inv in H' as [-> (qd & Hqd & ->)]. rewrite Hdef in K.
    unfold tempdir, with_ in K.
    destruct (cm_enter TemporaryDirectory s) as [[e|d] s0] eqn:Eenter.
    { injection K as <- <-. cbn [cm_enter TemporaryDirectory] in Eenter.
      unfold bind, gets in Eenter. left. exists e. split; [done|].
      split; [eapply mkdtemp_raises, Eenter | eapply mkdtemp_emits, Eenter]. }
    assert (emits (λ e, frame_event e = true) s s0) as Hs0.
    { cbn [cm_enter TemporaryDirectory] in Eenter. unfold bind, gets in Eenter.
      eapply mkdtemp_emits, Eenter. }
    destruct (bind (path_resolve (PurePath.parse d)) _ s0) as [res s2] eqn:Ebody.
    destruct (cm_exit TemporaryDirectory d s2) as [rx s3] eqn:Eexit.
    apply tempdir_exit in Eexit as (Ht & Hfs & Hself & Hcwd & _ & Hrx).
    assert (emits (λ e, frame_event e = true) s2 s3) as Hexit.
    { exists [EvRmtree d]. split; [done | by repeat constructor]. }
    assert (r = res ∨ ∃ e, r = inl e ∧ not_solver_failure e) as Hres.
    { destruct rx as [e|[]]; injection K as <- _; [right; exists e; tauto | by left]. }
    assert (s' = s3) as -> by (destruct rx as [e|[]]; by injection K).
    clear K.
    apply bind_inv in Ebody as [(e & Hr & ->) | (rundir' & sE & Hr & K)].
    { apply path_resolve_inv in Hr as [-> Hr]. left.
      destruct Hres as [-> | (e' & -> & He')].
      - exists e. split; [done|]. split; [done | by etrans].
      - exists e'. split; [done|]. split; [done | by etrans]. }
    apply path_resolve_inv in Hr as [-> _]. right.
    eexists modelpath, _, rundir', s0, s2, res.
    split; [exact K|]. split; [exact Hres|]. split; [done|]. split; [done|].
    split; [done|]. split; [done|]. split; [done|]. split; [exact Hmodel|].
    exists s, qd. split; [reflexivity|]. split; [|done].
    revert Hqd. unfold destination. by destruct outdir.
Qed.

(** A body that ends on the failure of the solver has done its cleanup
    and has copied nothing. *)
Lemma failed_body (env : Env) (model : string) (modelpath outdir rundir : PurePath.t)
    (outfile : string) (s s' : state) (code : Z) (cmd : list string) :
  run_body env model modelpath outdir outfile rundir s
  = (inl (CalledProcessError code cmd), s') →
  ∃ s1, _remove_potential_outfiles model outdir outfile s = (inr tt, s1)
        ∧ emits (λ e, staging_event e = true) s s1
        ∧ emits (λ e, is_copy e = false) s s'.
Proof.
  intros H. rewrite run_body_split in H.
  destruct (before_extraction env model modelpath outdir rundir outfile s)
    as [[e|[]] s3] eqn:Epre.
  - injection H as -> <-.
    pose proof (before_extraction_emits _ _ _ _ _ _ _ _ _ Epre) as Hnocopy.
    unfold before_extraction in Epre.
    apply bind_inv in Epre as [(e & Hc & [= <-]) | ([] & s1 & Hc & _)].
    + by apply cleanup_raises in Hc.
    + exists s1. split; [done|]. split; [eapply cleanup_emits, Hc | done].
  - by apply extract_raises in H.
Qed.

Lemma cleanup_events (model : string) (outdir : PurePath.t) (outfile : string) :
  stable (emits (cleanup_event outdir outfile))
         (_remove_potential_outfiles model outdir outfile).
Proof.
  unfold _remove_potential_outfiles. cbn [for_]. cbv zeta.
  repeat first
    [ stable_step
    | apply emits_set_fs
    | apply emits_log_event; first
        [ left; eexists; reflexivity
        | right; eexists; split; [|reflexivity]; unfold data_exts; set_solver ]
    | unfold_head ].
Qed.

(** *** The names the cleanup removes *)

Lemma split_slash_nonempty (s : string) : Str.split_slash s ≠ [].
Proof.
  destruct s as [|c s]; simpl; [done|].
  destruct (bool_decide (c = Str.slash)); [done|]. by destruct (Str.split_slash s).
Qed.

(** A suffix without a slash goes to the last piece. *)
Lemma split_slash_app (s t : string) :
  Str.split_slash t = [t] →
  Str.split_slash (s +:+ t)
  = removelast (Str.split_slash s) ++ [List.last (Str.split_slash s) "" +:+ t].
Proof.
  intros Ht. induction s as [|c s IH].
  - rewrite StrFacts.append_nil. by rewrite Ht.
  - rewrite StrFacts.append_cons. cbn [Str.split_slash]. rewrite IH.
    pose proof (split_slash_nonempty s) as Hne.
    destruct (Str.split_slash s) as [|p ps]; [done|].
    destruct (bool_decide (c = Str.slash)); [done|].
    by destruct ps.
Qed.

Lemma keep_part_app (x t : string) :
  PurePath.keep_part t = true → PurePath.keep_part (x +:+ t) = true.
Proof.
  intros Hk. induction x as [|c x IH]; [by rewrite StrFacts.append_nil|].
  rewrite StrFacts.append_cons. by apply StrFacts.keep_part_cons.
Qed.

Lemma parts_app_suffix (s t : string) :
  Str.split_slash t = [t] → PurePath.keep_part t = true →
  PurePath.parts (PurePath.parse (s +:+ t))
  = List.filter PurePath.keep_part (removelast (Str.split_slash s))
    ++ [List.last (Str.split_slash s) "" +:+ t].
Proof.
  intros Ht Hk. unfold PurePath.parse. cbn [PurePath.parts].
  rewrite (split_slash_app s t Ht), List.filter_app. cbn [List.filter].
  by rewrite (keep_part_app _ t Hk).
Qed.

(** The file name of [dest / (outfile + suffix)]. *)
Lemma name_join_suffix (dest : PurePath.t) (s t : string) :
  Str.split_slash t = [t] → PurePath.keep_part t = true →
  PurePath.name (dest // (s +:+ t)) = List.last (Str.split_slash s) "" +:+ t.
Proof.
  intros Ht Hk. unfold PurePath.name, PurePath.join.
  destruct (PurePath.absolute (PurePath.parse (s +:+ t))); cbn [PurePath.parts];
    rewrite (parts_app_suffix s t Ht Hk); [|rewrite app_assoc]; apply List.last_last.
Qed.

Lemma anchor_join_suffix (cwd : FS.path) (dest : PurePath.t) (s t : string) :
  Str.split_slash t = [t] → PurePath.keep_part t = true →
  ∃ pre, FS.anchor cwd (dest // (s +:+ t))
         = pre ++ [List.last (Str.split_slash s) "" +:+ t].
Proof.
  intros Ht Hk. unfold FS.anchor, PurePath.join.
  destruct (PurePath.absolute (PurePath.parse (s +:+ t))) eqn:Ea; cbn [PurePath.parts PurePath.absolute];
    rewrite ?Ea, (parts_app_suffix s t Ht Hk).
  - eauto.
  - destruct (PurePath.absolute dest); rewrite ?app_assoc; eauto.
Qed.

Lemma length_append (x t : string) :
  String.length (x +:+ t) = String.length x + String.length t.
Proof.
  induction x as [|c x IH]; [done|]. rewrite StrFacts.append_cons. simpl. by rewrite IH.
Qed.

Lemma append_inj (x a b : string) : x +:+ a = x +:+ b → a = b.
Proof.
  induction x as [|c x IH]; [by rewrite !StrFacts.append_nil|].
  rewrite !StrFacts.append_cons. intros [= H]. by apply IH.
Qed.

(** Without following a last link, a path leads to an entry under its
    last segment. *)
Lemma walk_nofollow_last (fs : FS.t) (seg : string) (links : nat) :
  seg ≠ ".." →
  ∀ (rest : list string) (cur q : FS.path),
    FS.walk links fs false cur (rest ++ [seg]) = inr q → ∃ a, q = a ++ [seg].
Proof.
  intros Hseg. induction links as [links IHl] using lt_wf_ind.
  assert (String.eqb seg ".." = false) as Hs by (by apply String.eqb_neq).
  induction rest as [|x rest IH]; intros cur q.
  - cbn [app]. rewrite FSFacts.walk_cons, Hs. cbn [FS.is_nil negb andb].
    destruct (fs !! (cur ++ [seg])) as [[c| |tgt]|]; rewrite ?FSFacts.walk_nil;
      intros [= <-]; eauto.
  - assert (FS.is_nil (rest ++ [seg]) = false) as Hnil by (by destruct rest).
    cbn [app]. rewrite FSFacts.walk_cons, Hnil. destruct (String.eqb x "..").
    + destruct (FS.is_dir_at fs (FS.parent cur)); [apply IH | done].
    + destruct (fs !! (cur ++ [x])) as [[c| |tgt]|]; try done.
      * apply IH.
      * cbn [andb]. destruct links as [|links']; [done|].
        rewrite app_assoc. apply IHl. lia.
Qed.

(** One turn of the cleanup loop leaves in place every entry that is
    not named as the file it looks at. *)
Lemma cleanup_turn_keeps (outdir : PurePath.t) (outfile ext : string) (s s' : state)
    (r : exn + unit) (k : FS.path) (n : FS.node) :
  Str.split_slash ("." +:+ ext) = ["." +:+ ext] →
  PurePath.keep_part ("." +:+ ext) = true →
  2 < String.length ("." +:+ ext) →
  (let f := outdir // (outfile +:+ "." +:+ ext) in
   print ("Should delete " +:+ PurePath.to_string f) ;;;
   let* b := path_is_file f in
   if b then path_unlink f else ret tt) s = (r, s') →
  List.last k "" ≠ List.last (Str.split_slash outfile) "" +:+ "." +:+ ext →
  fs s !! k = Some n → fs s' !! k = Some n.
Proof.
  intros Ht Hk Hlen. cbv zeta. unfold print, path_is_file, path_unlink. munfold.
  intros Hrun Hlast Hn. revert Hrun.
  destruct (FS.is_file _ _ _); msimp; [|intros [= <- <-]; msimp; exact Hn].
  unfold FS.unlink, FS.locate.
  destruct (anchor_join_suffix (cwd s) outdir outfile _ Ht Hk) as [pre ->].
  destruct (FS.walk _ _ _ _ _) as [e|q] eqn:Ew; msimp;
    [intros [= <- <-]; msimp; exact Hn|].
  apply walk_nofollow_last in Ew as [a ->].
  2:{ intros E. apply (f_equal String.length) in E. rewrite length_append in E.
      change (String.length "..") with 2 in E. lia. }
  assert (k ≠ a ++ [List.last (Str.split_slash outfile) "" +:+ "." +:+ ext]) as Hne.
  { intros ->. by rewrite List.last_last in Hlast. }
  destruct (FS.node_at (fs s) _) as [[c| |t]|]; msimp; intros [= <- <-]; msimp;
    try exact Hn; by rewrite lookup_delete_ne.
Qed.

Lemma cleanup_loop_keeps (outdir : PurePath.t) (outfile : string) (exts : list string)
    (k : FS.path) (n : FS.node) :
  Forall (λ ext, Str.split_slash ("." +:+ ext) = ["." +:+ ext]
                 ∧ PurePath.keep_part ("." +:+ ext) = true
                 ∧ 2 < String.length ("." +:+ ext)
                 ∧ List.last k "" ≠ List.last (Str.split_slash outfile) "" +:+ "." +:+ ext)
         exts →
  ∀ (s s' : state) (r : exn + unit),
    for_ exts (λ ext,
      let f := outdir // (outfile +:+ "." +:+ ext) in
      print ("Should delete " +:+ PurePath.to_string f) ;;;
      let* b := path_is_file f in
      if b then path_unlink f else ret tt) s = (r, s') →
    fs s !! k = Some n → fs s' !! k = Some n.
Proof.
  induction 1 as [|ext exts (Ht & Hk & Hlen & Hne) _ IH]; intros s s' r; cbn [for_].
  - by intros [= <- <-].
  - intros H Hn. apply bind_inv in H as [(e & H & _) | ([] & s1 & H & Hrest)].
    + by eapply cleanup_turn_keeps in H.
    + eapply IH; [exact Hrest|]. by eapply cleanup_turn_keeps in H.
Qed.

(** The cleanup leaves in place every entry named as the log artifact. *)
Lemma cleanup_keeps_log (model : string) (outdir : PurePath.t) (outfile : string)
    (s s' : state) (r : exn + unit) (k : FS.path) (n : FS.node) :
  _remove_potential_outfiles model outdir outfile s = (r, s') →
  List.last k "" = log_entry_name outdir outfile →
  fs s !! k = Some n → fs s' !! k = Some n.
Proof.
  unfold log_entry_name. rewrite (name_join_suffix outdir outfile ".log") by done.
  intros H Hlast. revert H. unfold _remove_potential_outfiles, path_is_dir.
  unfold bind at 1. unfold gets at 1.
  destruct (FS.is_dir (fs s) (cwd s) outdir); cbn [negb]; [|by intros [= <- <-]].
  apply cleanup_loop_keeps.
  repeat (constructor;
          [ split; [done|]; split; [done|]; split; [simpl; lia|];
            rewrite Hlast; intros E; by apply append_inj in E |]).
  constructor.
Qed.

(** *** A call around its body *)

Lemma folderlock_enter (p : PurePath.t) (lockfn : string) (s s0 : state)
    (r : exn + PurePath.t) :
  cm_enter (folderlock p lockfn) s = (r, s0) →
  match r with
  | inl e => not_solver_failure e
  | inr x => x = p
  end.
Proof.
  unfold folderlock. cbn [cm_enter]. munfold.
  case_bool_decide; by intros [= <- <-].
Qed.

Lemma folderlock_exit (p : PurePath.t) (lockfn : string) (x : PurePath.t) (s : state) :
  ∃ s', cm_exit (folderlock p lockfn) x s = (inr tt, s')
        ∧ fs s' = fs s ∧ cwd s' = cwd s.
Proof. unfold folderlock. cbn [cm_exit]. munfold. eexists. done. Qed.

(** A call of [run] that does not end on an exception of its frame has
    gone through its set-up, run its body once, and ended as the body
    did after the exit of the provider of the run directory. *)
Lemma run_around (env : Env) (model : string) (rundir outdir : option string)
    (outfile : option string) (s s' : state) (r : exn + unit) :
  run env model rundir outdir outfile s = (r, s') →
  (∃ e, r = inl e ∧ not_solver_failure e)
  ∨ ∃ (modelpath dest rundir' : PurePath.t) (s0 s2 : state),
      run_body env (PurePath.name modelpath) modelpath dest
               (default (PurePath.name modelpath) outfile) rundir' s0 = (r, s2)
      ∧ around_body model rundir outdir s modelpath dest rundir' s0 s2 s'.
Proof.
  intros H. unfold run in H.
  apply bind_inv in H as [(e & H & ->) | (modelpath & sA & Hm & K)].
  { apply path_resolve_inv in H as [_ H]. left. eauto. }
  pose proof (path_resolve_inv _ _ _ _ Hm) as [-> _]. cbv zeta in K.
  assert (∀ o : option string,
            match o with Some o0 => o0 | None => PurePath.name modelpath end
            = default (PurePath.name modelpath) o) as Hdef by (by intros []).
  destruct rundir as [rd|].
  - apply bind_inv in K as [(e & H & ->) | (rundir' & sB & Hr & K)].
    { apply path_resolve_inv in H as [_ H]. left. eauto. }
    pose proof (path_resolve_inv _ _ _ _ Hr) as [-> _].
    apply bind_inv in K as [(e & H & ->) | ([] & sC & Hmk & K)].
    { left. exists e. split; [done|]. revert H.
      assert (raises_only not_solver_failure (path_mkdir_exist_ok rundir')) as Hx
        by (repeat raises_step). apply Hx. }
    apply bind_inv in K as [(e & H & ->) | (dest & sD & Ho & K)].
    { apply path_resolve_inv in H as [_ H]. left. eauto. }
    pose proof (path_resolve_inv _ _ _ _ Ho) as [-> _].
    rewrite Hdef in K. unfold with_ in K.
    destruct (cm_enter (folderlock rundir' "synspec.lock") sC) as [[e|x] s0] eqn:Een.
    { injection K as <- <-. apply folderlock_enter in Een. left. eauto. }
    pose proof (folderlock_enter _ _ _ _ _ Een) as Hx. cbv beta iota in Hx. subst x.
    destruct (run_body env _ modelpath dest _ rundir' s0) as [res s2] eqn:Ebody.
    destruct (folderlock_exit rundir' "synspec.lock" rundir' s2) as (s3 & Hex & _).
    rewrite Hex in K. injection K as <- <-. right.
    exists modelpath, dest, rundir', s0, s2. split; [exact Ebody|].
    split; [exact Hm|]. exists sC.
    split; [exact Hr|]. split; [exact Hmk|]. split; [by destruct outdir|].
    split; [exact Een | exact Hex].
  - apply bind_inv in K as [(e & H & ->) | (outdir0 & sB & H & K)].
    { destruct outdir; by injection H. }
    assert (sB = s ∧ outdir0 = destination None outdir (PurePath.of_location []) s)
      as [-> ->] by (destruct outdir; by injection H as <- <-).
    apply bind_inv in K as [(e & H' & ->) | (dest & sD & Ho & K)].
    { apply path_resolve_inv in H' as [_ H']. left. eauto. }
    pose proof (path_resolve_inv _ _ _ _ Ho) as [-> _]. rewrite Hdef in K.
    unfold tempdir, with_ in K.
    destruct (cm_enter TemporaryDirectory s) as [[e|d] s0] eqn:Een.
    { injection K as <- <-. cbn [cm_enter TemporaryDirectory] in Een.
      unfold bind, gets in Een. left. exists e. split; [done|].
      eapply mkdtemp_raises, Een. }
    destruct (bind (path_resolve (PurePath.parse d)) _ s0) as [res s2] eqn:Ebody.
    destruct (cm_exit TemporaryDirectory d s2) as [[e|[]] s3] eqn:Eex.
    { injection K as <- <-. apply tempdir_exit in Eex as (_ & _ & _ & _ & _ & He & _).
      left. eauto. }
    injection K as <- <-.
    apply bind_inv in Ebody as [(e & Hr & ->) | (rundir' & sE & Hr & K)].
    { apply path_resolve_inv in Hr as [_ Hr]. left. eauto. }
    pose proof (path_resolve_inv _ _ _ _ Hr) as [-> _]. right.
    exists modelpath, dest, rundir', s0, s2. split; [exact K|].
    split; [exact Hm|]. exists d.
    split; [revert Ho; by destruct outdir|]. done.
Qed.

(** What the exit of a call leaves: no file that the body had not left. *)
Lemma around_body_exit (model : string) (rundir outdir : option string) (s : state)
    (modelpath dest rundir' : PurePath.t) (s0 s2 s' : state) :
  around_body model rundir outdir s modelpath dest rundir' s0 s2 s' →
  fs s' ⊆ fs s2 ∧ cwd s' = cwd s2.
Proof.
  intros [_ H]. destruct rundir as [rd|].
  - destruct H as (sC & _ & _ & _ & _ & Hex).
    destruct (folderlock_exit rundir' "synspec.lock" rundir' s2) as (s3 & Hex' & Hfs & Hcwd).
    rewrite Hex in Hex'. injection Hex' as <-. by rewrite Hfs.
  - destruct H as (d & _ & _ & _ & Hex).
    by apply tempdir_exit in Hex as (_ & Hfs & _ & Hcwd & _).
Qed.

(** A body that ends on the failure of the solver ended before its
    extraction. *)
Lemma failed_tail (env : Env) (model : string) (modelpath outdir rundir : PurePath.t)
    (outfile : string) (s1 s2 : state) (code : Z) (cmd : list string) :
  (_copy_to_rundir env model modelpath rundir ;;;
   _check_files model rundir ;;;
   _run env model rundir ;;;
   _extract_outfiles model rundir outdir outfile) s1
  = (inl (CalledProcessError code cmd), s2) →
  (_copy_to_rundir env model modelpath rundir ;;;
   _check_files model rundir ;;;
   _run env model rundir) s1
  = (inl (CalledProcessError code cmd), s2).
Proof.
  unfold bind.
  destruct (_copy_to_rundir env model modelpath rundir s1) as [[e|[]] sa]; [done|].
  destruct (_check_files model rundir sa) as [[e|[]] sb]; [done|].
  destruct (_run env model rundir sb) as [[e|[]] sc]; [done|].
  intros H. by apply extract_raises in H.
Qed.

(** The claim C1 as the specification words it fails in two ways.
    First, it counts the log among the artifacts that are gone after a
    failed run, and the log is not among the files the cleanup deletes:
    on the demo world with the stale outputs of an earlier run, the call
    fails on the solver and the stale [m.log] is still a file of the
    destination afterwards.  Second, even for the four data outputs,
    what is gone right after the cleanup need not be absent after the
    call, because the staging of the same call can put a link under such
    a name: with a link-table entry [m.spec] added by [add_link], an
    in-place call that fails on the solver ends with [m.spec] in the
    destination. *)
Lemma C1_counterexample :
  ¬ (∀ (env : Env) (model : string) (rundir : option string) (outdir outfile : string)
       (s s' : state) (code : Z) (cmd : list string) (ext : string),
       run env model rundir (Some outdir) (Some outfile) s
       = (inl (CalledProcessError code cmd), s') →
       ext ∈ ["spec"; "iden"; "eqws"; "cont"; "log"] →
       FS.exists_ (fs s') (cwd s') (PurePath.parse outdir // (outfile +:+ "." +:+ ext))
       = false)
  ∧ ¬ (∀ (env : Env) (model : string) (rundir : option string) (outdir outfile : string)
         (s s' : state) (code : Z) (cmd : list string) (ext : string),
         run env model rundir (Some outdir) (Some outfile) s
         = (inl (CalledProcessError code cmd), s') →
         ext ∈ ["spec"; "iden"; "eqws"; "cont"] →
         FS.exists_ (fs s') (cwd s') (PurePath.parse outdir // (outfile +:+ "." +:+ ext))
         = false).
Proof.
  split.
  - intros H.
    assert ((run Demo.env "m" (Some ".") (Some "/w") (Some "m")
               (Demo.world (Demo.files "" "" "bad" ++ Demo.stale))).1
            = inl (CalledProcessError 1 ["synspec"])) as Hfail
      by (vm_compute; reflexivity).
    assert (FS.exists_
              (fs (run Demo.env "m" (Some ".") (Some "/w") (Some "m")
                     (Demo.world (Demo.files "" "" "bad" ++ Demo.stale))).2)
              (cwd (run Demo.env "m" (Some ".") (Some "/w") (Some "m")
                      (Demo.world (Demo.files "" "" "bad" ++ Demo.stale))).2)
              (PurePath.parse "/w" // ("m" +:+ "." +:+ "log"))
            = true) as Hlog by (vm_compute; reflexivity).
    destruct (run Demo.env "m" (Some ".") (Some "/w") (Some "m")
                (Demo.world (Demo.files "" "" "bad" ++ Demo.stale))) as [r s'] eqn:Hrun.
    cbn [fst snd] in Hfail, Hlog. subst r.
    rewrite (H _ _ _ _ _ _ _ _ _ "log" Hrun) in Hlog; [discriminate|].
    do 4 apply list_elem_of_further. apply list_elem_of_here.
  - intros H.
    assert ((run Demo.env "m" (Some ".") (Some "/w") (Some "m")
               (add_link "fort.19" (Some "m.spec")
                  (Demo.world (Demo.files "" "" "bad"))).2).1
            = inl (CalledProcessError 1 ["synspec"])) as Hfail
      by (vm_compute; reflexivity).
    assert (FS.exists_
              (fs (run Demo.env "m" (Some ".") (Some "/w") (Some "m")
                     (add_link "fort.19" (Some "m.spec")
                        (Demo.world (Demo.files "" "" "bad"))).2).2)
              (cwd (run Demo.env "m" (Some ".") (Some "/w") (Some "m")
                      (add_link "fort.19" (Some "m.spec")
                         (Demo.world (Demo.files "" "" "bad"))).2).2)
              (PurePath.parse "/w" // ("m" +:+ "." +:+ "spec"))
            = true) as Hspec by (vm_compute; reflexivity).
    destruct (run Demo.env "m" (Some ".") (Some "/w") (Some "m")
                (add_link "fort.19" (Some "m.spec")
                   (Demo.world (Demo.files "" "" "bad"))).2) as [r s'] eqn:Hrun.
    cbn [fst snd] in Hfail, Hspec. subst r.
    rewrite (H _ _ _ _ _ _ _ _ _ "spec" Hrun) in Hspec; [discriminate|].
    apply list_elem_of_here.
Qed.

(** C1 (as amended). For every call of [run] that ends on the failure of
    the solver (a [CalledProcessError]): the call went through its set-up
    and entered its body; the pre-run cleanup ran first and returned;
    what follows it in the body, staging, check and runner, ended on
    that failure, so the extraction did not run and nothing is copied in
    the whole call; and the exit of the provider of the run directory
    returned.  Right after the cleanup none of [outfile.spec],
    [outfile.iden], [outfile.eqws] and [outfile.cont] is a file of the
    destination directory (for an [outfile] that is not an absolute
    path), whether or not such files were there before the call.  The
    exit makes no file: a file found under one of these names after the
    call was put there by the staging or the solver of the call itself,
    after the cleanup; it is neither a stale output nor a copy.  The
    cleanup leaves in place every entry whose name is the one of the log
    artifact: [outfile.log] is not cleaned. *)
Theorem C1_failed_run_leaves_no_data (env : Env) (model : string)
    (rundir outdir outfile : option string) (s s' : state) (code : Z) (cmd : list string) :
  run env model rundir outdir outfile s = (inl (CalledProcessError code cmd), s') →
  ∃ (modelpath dest rundir' : PurePath.t) (s0 s1 s2 : state),
    let model' := PurePath.name modelpath in
    let name := default model' outfile in
    (* the set-up leads from [s] to [s0], the exit from [s2] to [s'] *)
    around_body model rundir outdir s modelpath dest rundir' s0 s2 s'
    (* the body: the cleanup returns in [s1] *)
    ∧ _remove_potential_outfiles model' dest name s0 = (inr tt, s1)
    (* what follows it ends on the failure in [s2], before the extraction *)
    ∧ (_copy_to_rundir env model' modelpath rundir' ;;;
       _check_files model' rundir' ;;;
       _run env model' rundir') s1 = (inl (CalledProcessError code cmd), s2)
    (* what the cleanup asks for: messages and removals of the four names *)
    ∧ emits (cleanup_event dest name) s0 s1
    (* right after the cleanup, no data output under the chosen name *)
    ∧ (Str.starts_with_slash name = false →
       ∀ ext, ext ∈ data_exts →
         FS.is_file (fs s1) (cwd s1) (dest // (name +:+ "." +:+ ext)) = false)
    (* the cleanup leaves the log *)
    ∧ (∀ k n, List.last k "" = log_entry_name dest name →
              fs s0 !! k = Some n → fs s1 !! k = Some n)
    (* nothing is copied in the whole call *)
    ∧ emits (λ e, is_copy e = false) s s'
    (* the exit makes no file *)
    ∧ (∀ p, FS.is_file (fs s') (cwd s') p = true → FS.is_file (fs s2) (cwd s2) p = true).
Proof.
  intros H.
  assert (emits (λ e, is_copy e = false) s s') as Hcopy.
  { pose proof (run_inv _ _ _ _ _ _ _ _ H) as [(e & [= <-] & [] & _) | Hi].
    destruct Hi as (mp & od & rd & t0 & t2 & rb & Hbody & Hres & Hin & Hout & _).
    assert (rb = inl (CalledProcessError code cmd)) as ->.
    { destruct Hres as [<- | (e & [= <-] & [])]. done. }
    apply failed_body in Hbody as (_ & _ & _ & Hnocopy).
    assert (∀ e, frame_event e = true → is_copy e = false) as Hw
      by (intros e; by destruct e).
    etrans; [eapply emits_impl, Hin; exact Hw|].
    etrans; [exact Hnocopy|]. eapply emits_impl, Hout; exact Hw. }
  apply run_around in H as [(e & [= <-] & []) | H].
  destruct H as (modelpath & dest & rundir' & s0 & s2 & Hbody & Haround).
  unfold run_body in Hbody.
  apply bind_inv in Hbody as [(e & Hc & [= <-]) | ([] & s1 & Hclean & Htail)].
  { by apply cleanup_raises in Hc. }
  apply failed_tail in Htail.
  exists modelpath, dest, rundir', s0, s1, s2. cbv zeta.
  split; [exact Haround|]. split; [exact Hclean|]. split; [exact Htail|].
  split; [eapply cleanup_events, Hclean|].
  split; [intros Hrel; by eapply cleanup_post|].
  split; [intros k n; by eapply cleanup_keeps_log|].
  split; [exact Hcopy|].
  apply around_body_exit in Haround as [Hfs Hcwd].
  intros p. rewrite Hcwd. by apply FSFacts.is_file_weaken.
Qed.

Lemma C1_failed_run_leaves_no_data_witness :
  ∃ s',
    run Demo.env "m" (Some ".") None None (Demo.world (Demo.files "" "" "bad" ++ Demo.stale))
    = (inl (CalledProcessError 1 ["synspec"]), s')
    ∧ Str.starts_with_slash "m" = false
    ∧ Forall (λ e, is_copy e = false) (trace s')
    ∧ ∃ dest s0 s1,
        _remove_potential_outfiles "m" dest "m" s0 = (inr tt, s1)
        ∧ FS.is_file (fs s1) (cwd s1) (dest // ("m" +:+ "." +:+ "spec")) = false.
Proof.
  assert ((run Demo.env "m" (Some ".") None None
             (Demo.world (Demo.files "" "" "bad" ++ Demo.stale))).1
          = inl (CalledProcessError 1 ["synspec"])) as Hfail
    by (vm_compute; reflexivity).
  assert (path_resolve (PurePath.parse "m")
            (Demo.world (Demo.files "" "" "bad" ++ Demo.stale))
          = (inr (PurePath.of_location ["w"; "m"]),
             Demo.world (Demo.files "" "" "bad" ++ Demo.stale))) as Hm
    by (vm_compute; reflexivity).
  destruct (run Demo.env "m" (Some ".") None None
              (Demo.world (Demo.files "" "" "bad" ++ Demo.stale))) as [r s'] eqn:Hrun.
  cbn [fst] in Hfail. subst r. exists s'.
  split; [reflexivity|]. split; [reflexivity|].
  destruct (C1_failed_run_leaves_no_data Demo.env "m" (Some ".") None None _ s' 1
              ["synspec"] Hrun)
    as (modelpath & dest & rundir' & s0 & s1 & s2 & [Hmp _] & Hclean & _ & _ & Hpost & _
        & (evs & Ht & Hf) & _).
  rewrite Hm in Hmp. injection Hmp as <-.
  split.
  - rewrite Ht. exact Hf.
  - exists dest, s0, s1. split; [exact Hclean|].
    apply (Hpost eq_refl). apply list_elem_of_here.
Defined.

(* ===================================================================== *)
(** ** The directory lock *)
(* ===================================================================== *)

#[global] Instance same_locks_preorder : PreOrder same_locks.
Proof.
  split.
  - by intros s.
  - intros a b c H1 H2. unfold same_locks in *. congruence.
Qed.









(* ===================================================================== *)
(** ** Dependency discovery *)
(* ===================================================================== *)

Lemma add_candidate_spec (req : string) (s : state) :
  add_candidate req s =
    (inr tt,
     if FS.exists_ (fs s) (cwd s) (PurePath.parse req)
        && negb (dict_mem req (linkfiles (self s)))
     then set_self (set_linkfiles (dict_set (linkfiles (self s)) req req) (self s)) s
     else s).
Proof.
  unfold add_candidate. munfold.
  by destruct (FS.exists_ (fs s) (cwd s) (PurePath.parse req)
               && negb (dict_mem req (linkfiles (self s)))).
Qed.

Lemma dict_mem_set (d : list (string * string)) (k v k' : string) :
  dict_mem k' (dict_set d k v) = String.eqb k' k || dict_mem k' d.
Proof. unfold dict_mem. rewrite dict_get_set. by destruct (String.eqb k' k). Qed.

(** The loop over the candidates: it touches nothing but the table, and a
    key ends mapped from itself exactly when it is a candidate that exists
    and was no key before; every other key keeps what it had. *)
Lemma discover_loop (cands : list string) (s : state) :
  ∃ s', for_ cands add_candidate s = (inr tt, s')
        ∧ fs s' = fs s ∧ cwd s' = cwd s ∧ trace s' = trace s
        ∧ held s' = held s ∧ tmp_names s' = tmp_names s
        ∧ version (self s') = version (self s) ∧ synspec (self s') = synspec (self s)
        ∧ ∀ k, dict_get (linkfiles (self s')) k
               = if bool_decide (k ∈ cands)
                    && FS.exists_ (fs s) (cwd s) (PurePath.parse k)
                    && negb (dict_mem k (linkfiles (self s)))
                 then Some k
                 else dict_get (linkfiles (self s)) k.
Proof.
  revert s. induction cands as [|c cands IH]; intros s; cbn [for_].
  - exists s. repeat (split; [done|]). intros k.
    by rewrite bool_decide_eq_false_2 by apply not_elem_of_nil.
  - unfold bind. rewrite add_candidate_spec.
    set (s1 := if FS.exists_ (fs s) (cwd s) (PurePath.parse c)
                  && negb (dict_mem c (linkfiles (self s)))
               then set_self (set_linkfiles (dict_set (linkfiles (self s)) c c) (self s)) s
               else s).
    destruct (IH s1) as (s' & Hrun & Hfs & Hcwd & Htr & Hh & Htmp & Hv & Hsy & Hget).
    assert (fs s1 = fs s ∧ cwd s1 = cwd s ∧ trace s1 = trace s ∧ held s1 = held s
            ∧ tmp_names s1 = tmp_names s ∧ version (self s1) = version (self s)
            ∧ synspec (self s1) = synspec (self s)
            ∧ linkfiles (self s1)
              = if FS.exists_ (fs s) (cwd s) (PurePath.parse c)
                   && negb (dict_mem c (linkfiles (self s)))
                then dict_set (linkfiles (self s)) c c
                else linkfiles (self s))
      as (E1 & E2 & E3 & E4 & E5 & E6 & E7 & T1).
    { subst s1. by destruct (FS.exists_ (fs s) (cwd s) (PurePath.parse c)
                             && negb (dict_mem c (linkfiles (self s)))). }
    exists s'. split; [exact Hrun|].
    repeat (split; [congruence|]).
    intros k. rewrite Hget, E1, E2, T1. clear Hget Hrun IH T1.
    destruct (FS.exists_ (fs s) (cwd s) (PurePath.parse c)
              && negb (dict_mem c (linkfiles (self s)))) eqn:Ec.
    + rewrite dict_mem_set, dict_get_set.
      destruct (String.eqb_spec k c) as [E|Hne].
      * subst k. cbn [orb negb]. rewrite andb_false_r.
        rewrite (bool_decide_eq_true_2 (c ∈ c :: cands)) by apply list_elem_of_here.
        cbn [andb]. by rewrite Ec.
      * cbn [orb].
        assert (bool_decide (k ∈ c :: cands) = bool_decide (k ∈ cands)) as ->.
        { apply bool_decide_ext. rewrite elem_of_cons. split; [by intros [?|?] | by right]. }
        done.
    + destruct (decide (k = c)) as [E|Hne].
      * subst k.
        rewrite (bool_decide_eq_true_2 (c ∈ c :: cands)) by apply list_elem_of_here.
        rewrite <- !andb_assoc, Ec, andb_false_r. done.
      * assert (bool_decide (k ∈ c :: cands) = bool_decide (k ∈ cands)) as ->.
        { apply bool_decide_ext. rewrite elem_of_cons. split; [by intros [?|?] | by right]. }
        done.
Qed.

Lemma input_refs_spec (mi : ModelInput) (r : string) :
  r ∈ input_refs mi ↔
  (finstd mi = Some r ∧ r ≠ "") ∨ (∃ l, ions mi = Some l ∧ r ∈ l).
Proof.
  unfold input_refs. rewrite elem_of_app. split.
  - intros [H|H].
    + left. destruct (finstd mi) as [f|]; [|by apply elem_of_nil in H].
      destruct (String.eqb_spec f ""); [by apply elem_of_nil in H|].
      apply list_elem_of_singleton in H as ->. done.
    + right. destruct (ions mi) as [l|]; [eauto | by apply elem_of_nil in H].
  - intros [[Hf Hne] | (l & Hi & Hin)].
    + left. rewrite Hf. destruct (String.eqb_spec r ""); [done|].
      by apply list_elem_of_singleton.
    + right. by rewrite Hi.
Qed.

Lemma candidates_spec (refs : list string) (c : string) :
  c ∈ candidates refs ↔
  ∃ r, r ∈ refs ∧ PurePath.is_absolute (PurePath.parse r) = false
       ∧ c = hd "." (PurePath.parts (PurePath.parse r)).
Proof.
  unfold candidates. rewrite elem_of_remove_dups, list_elem_of_In, List.in_map_iff.
  split.
  - intros (p & <- & Hp). apply List.filter_In in Hp as [Hp Hrel].
    apply List.in_map_iff in Hp as (r & <- & Hr).
    apply negb_true_iff in Hrel.
    exists r. split; [by apply list_elem_of_In|]. split; [done|].
    by apply StrFacts.first_segment.
  - intros (r & Hr & Hrel & ->). exists (PurePath.parse r).
    split; [by apply StrFacts.first_segment|].
    apply List.filter_In. split; [|by rewrite Hrel].
    apply List.in_map. by apply list_elem_of_In.
Qed.

(** C4. The discovery reads the input descriptor named by the [{model}.5]
    entry of the table and collects from it the standard-file reference,
    when there is one that is not empty, and the file reference of every
    ion.  The candidates are these references without the absolute ones,
    each cut down to its first path segment, without repetition.  The
    loop over the candidates always returns and changes nothing but the
    table; afterwards a key is mapped from itself if and only if it is a
    candidate that exists on disk (seen from the working directory of the
    caller) and was not a key of the table before, and every other key has
    the entry it had. *)
Theorem C4_dependency_discovery (env : Env) (model : string) (modelpath : PurePath.t)
    (s : state) (template inputfile text : string) (mi : ModelInput) :
  dict_get (linkfiles (self s)) "{model}.5" = Some template →
  Str.format (model_kw model modelpath) template = Some inputfile →
  FS.read (fs s) (cwd s) (PurePath.parse inputfile) = inr text →
  decode_input env text = inr mi →
  let cands := candidates (input_refs mi) in
  (* what is collected *)
  (∀ r, r ∈ input_refs mi ↔
        (finstd mi = Some r ∧ r ≠ "") ∨ (∃ l, ions mi = Some l ∧ r ∈ l))
  (* what becomes a candidate *)
  ∧ NoDup cands
  ∧ (∀ c, c ∈ cands ↔
          ∃ r, r ∈ input_refs mi ∧ PurePath.is_absolute (PurePath.parse r) = false
               ∧ c = hd "." (PurePath.parts (PurePath.parse r)))
  (* what is added to the table *)
  ∧ ∃ s', discover_links env model modelpath s = (inr tt, s')
          ∧ (∀ k, dict_get (linkfiles (self s')) k
                  = if bool_decide (k ∈ cands)
                       && FS.exists_ (fs s) (cwd s) (PurePath.parse k)
                       && negb (dict_mem k (linkfiles (self s)))
                    then Some k
                    else dict_get (linkfiles (self s)) k)
          ∧ fs s' = fs s ∧ cwd s' = cwd s
          ∧ trace s' = trace s ++ [EvOpenRead (PurePath.to_string (PurePath.parse inputfile))].
Proof.
  intros Ht Hf Hr Hd cands.
  split; [apply input_refs_spec|]. split; [apply NoDup_remove_dups|].
  split; [apply candidates_spec|].
  unfold discover_links. munfold. rewrite Ht. msimp. rewrite Hf. msimp.
  rewrite Hr. msimp. rewrite Hd. msimp.
  destruct (discover_loop cands
              (log_event (EvOpenRead (PurePath.to_string (PurePath.parse inputfile))) s))
    as (s' & Hrun & Hfs & Hcwd & Htr & _ & _ & _ & _ & Hget).
  exists s'. split; [exact Hrun|]. split; [exact Hget|]. done.
Qed.

Lemma C4_dependency_discovery_witness :
  let s := Demo.world (Demo.files "" "data/h1.dat" "ok" ++ [(["w"; "data"], FS.Dir)]) in
  let mi := mkModelInput None (Some ["data/h1.dat"]) in
  dict_get (linkfiles (self s)) "{model}.5" = Some "{modelpath}.5"
  ∧ Str.format (model_kw "m" (PurePath.of_location ["w"; "m"])) "{modelpath}.5"
    = Some "/w/m.5"
  ∧ FS.read (fs s) (cwd s) (PurePath.parse "/w/m.5") = inr "data/h1.dat"
  ∧ decode_input Demo.env "data/h1.dat" = inr mi
  ∧ candidates (input_refs mi) = ["data"]
  ∧ ∃ s', discover_links Demo.env "m" (PurePath.of_location ["w"; "m"]) s = (inr tt, s')
          ∧ dict_get (linkfiles (self s')) "data" = Some "data"
          ∧ dict_get (linkfiles (self s')) "fort.19" = Some "fort.19".
Proof.
  intros s mi.
  assert (dict_get (linkfiles (self s)) "{model}.5" = Some "{modelpath}.5") as H1
    by reflexivity.
  assert (Str.format (model_kw "m" (PurePath.of_location ["w"; "m"])) "{modelpath}.5"
          = Some "/w/m.5") as H2 by reflexivity.
  assert (FS.read (fs s) (cwd s) (PurePath.parse "/w/m.5") = inr "data/h1.dat") as H3
    by (vm_compute; reflexivity).
  assert (decode_input Demo.env "data/h1.dat" = inr mi) as H4 by reflexivity.
  assert (candidates (input_refs mi) = ["data"]) as H5 by (vm_compute; reflexivity).
  repeat (split; [assumption|]).
  destruct (C4_dependency_discovery Demo.env "m" (PurePath.of_location ["w"; "m"]) s
              "{modelpath}.5" "/w/m.5" "data/h1.dat" mi H1 H2 H3 H4)
    as (_ & _ & _ & s' & Hrun & Hget & _).
  exists s'. split; [exact Hrun|]. rewrite !Hget, H5. split; vm_compute; reflexivity.
Defined.

(* ===================================================================== *)
(** ** The instance across calls *)
(* ===================================================================== *)









(* ===================================================================== *)
(** ** More on path resolution *)
(* ===================================================================== *)

Module FSMore.
Import FS.

(** Resolution that does not follow a last link ends where the one that
    follows it ends, or on a link. *)
Lemma walk_nofollow (fs : FS.t) (links : nat) :
  ∀ (rest : list string) (cur q' : path),
    walk links fs true cur rest = inr q' →
    ∃ q, walk links fs false cur rest = inr q
         ∧ (q = q' ∨ ∃ a seg tgt, q = a ++ [seg] ∧ fs !! q = Some (Link tgt)).
Proof.
  induction links as [links IHl] using lt_wf_ind.
  induction rest as [|seg rest IH]; intros cur q'.
  - rewrite !FSFacts.walk_nil. intros [= <-]. eauto.
  - rewrite !FSFacts.walk_cons. destruct (String.eqb seg "..").
    + destruct (is_dir_at fs (parent cur)); [apply IH | done].
    + destruct (fs !! (cur ++ [seg])) as [[c| |tgt]|] eqn:E.
      * destruct (is_nil rest); [|done]. intros [= <-]. eauto.
      * apply IH.
      * destruct (is_nil rest) eqn:En; cbn [andb negb].
        -- intros _. exists (cur ++ [seg]). split; [done|]. right.
           exists cur, seg, tgt. done.
        -- destruct links as [|links']; [done|]. apply IHl. lia.
      * destruct (is_nil rest); [|done]. intros [= <-]. eauto.
Qed.

(** Writing a file where a path leads does not change where it leads. *)
Lemma walk_insert_file (fs : FS.t) (links : nat) (q : path) (c : string) :
  q ≠ [] →
  (fs !! q = None ∨ ∃ c0, fs !! q = Some (File c0)) →
  ∀ (rest : list string) (cur : path),
    walk links fs true cur rest = inr q →
    walk links (<[q := File c]> fs) true cur rest = inr q.
Proof.
  intros Hq Hnode. induction links as [links IHl] using lt_wf_ind.
  assert (∀ d, is_dir_at fs d = true → is_dir_at (<[q := File c]> fs) d = true) as Hdir.
  { intros d. unfold is_dir_at, node_at. destruct d as [|x d]; [done|].
    destruct (decide (q = x :: d)) as [<-|Hne].
    - destruct Hnode as [-> | [c0 ->]]; done.
    - by rewrite lookup_insert_ne. }
  induction rest as [|seg rest IH]; intros cur.
  - by rewrite !FSFacts.walk_nil.
  - rewrite !FSFacts.walk_cons. destruct (String.eqb seg "..").
    + destruct (is_dir_at fs (parent cur)) eqn:Ed; [|done].
      rewrite (Hdir _ Ed). apply IH.
    + destruct (decide (q = cur ++ [seg])) as [->|Hne].
      * rewrite lookup_insert_eq.
        destruct Hnode as [-> | [c0 ->]]; by destruct (is_nil rest).
      * rewrite lookup_insert_ne by done.
        destruct (fs !! (cur ++ [seg])) as [[c1| |tgt]|]; try done.
        -- apply IH.
        -- destruct (is_nil rest && negb true); [done|].
           destruct links as [|links']; [done|]. apply IHl. lia.
Qed.

(** Writing a file elsewhere does not change where a path leads. *)
Lemma walk_insert_other (fs : FS.t) (links : nat) (q : path) (c : string) :
  q ≠ [] →
  (fs !! q = None ∨ ∃ c0, fs !! q = Some (File c0)) →
  ∀ (rest : list string) (cur qs : path),
    walk links fs true cur rest = inr qs → qs ≠ q →
    walk links (<[q := File c]> fs) true cur rest = inr qs.
Proof.
  intros Hq Hnode. induction links as [links IHl] using lt_wf_ind.
  assert (∀ d, is_dir_at fs d = true → is_dir_at (<[q := File c]> fs) d = true) as Hdir.
  { intros d. unfold is_dir_at, node_at. destruct d as [|x d]; [done|].
    destruct (decide (q = x :: d)) as [<-|Hne].
    - destruct Hnode as [-> | [c0 ->]]; done.
    - by rewrite lookup_insert_ne. }
  induction rest as [|seg rest IH]; intros cur qs.
  - by rewrite !FSFacts.walk_nil.
  - rewrite !FSFacts.walk_cons. destruct (String.eqb seg "..").
    + destruct (is_dir_at fs (parent cur)) eqn:Ed; [|done].
      rewrite (Hdir _ Ed). apply IH.
    + destruct (decide (q = cur ++ [seg])) as [->|Hne].
      * rewrite lookup_insert_eq.
        destruct Hnode as [-> | [c0 ->]]; destruct (is_nil rest); try done;
          by intros [= <-].
      * rewrite lookup_insert_ne by done.
        destruct (fs !! (cur ++ [seg])) as [[c1| |tgt]|]; try done.
        -- apply IH.
        -- destruct (is_nil rest && negb true); [done|].
           destruct links as [|links']; [done|]. apply IHl. lia.
Qed.

(** What is a file can be unlinked. *)
Lemma unlink_file (fs : FS.t) (cwd : path) (p : PurePath.t) :
  is_file fs cwd p = true → ∃ fs', unlink fs cwd p = inr fs'.
Proof.
  unfold is_file, stat, unlink, locate.
  destruct (walk max_links fs true [] (anchor cwd p)) as [e|q'] eqn:Ew; [done|].
  destruct (walk_nofollow _ _ _ _ _ Ew) as (q & -> & Hq).
  destruct Hq as [-> | (a & seg & tgt & -> & Hl)].
  - destruct (node_at fs q') as [[]|]; try done. eauto.
  - intros _. unfold node_at. destruct (a ++ [seg]) eqn:E.
    + by destruct a.
    + rewrite Hl. eauto.
Qed.

(** Nothing is left below a tree that was removed. *)
Lemma rmtree_lookup (fs : FS.t) (q k : path) :
  q `prefix_of` k → rmtree fs q !! k = None.
Proof.
  intros Hp. unfold rmtree. apply map_lookup_filter_None. right.
  intros x _ Hn. by apply Hn.
Qed.

Lemma rmtree_lookup_other (fs : FS.t) (q k : path) :
  ¬ q `prefix_of` k → rmtree fs q !! k = fs !! k.
Proof.
  intros Hp. unfold rmtree. destruct (fs !! k) as [x|] eqn:E.
  - apply map_lookup_filter_Some. done.
  - apply map_lookup_filter_None. by left.
Qed.

End FSMore.

(* ===================================================================== *)
(** ** The pre-run cleanup never fails *)
(* ===================================================================== *)

Lemma cleanup_turn_returns (outdir : PurePath.t) (outfile ext : string) (s : state) :
  ∃ s',
    (let f := outdir // (outfile +:+ "." +:+ ext) in
     print ("Should delete " +:+ PurePath.to_string f) ;;;
     let* b := path_is_file f in
     if b then path_unlink f else ret tt) s = (inr tt, s')
    ∧ only_removes s s'.
Proof.
  cbv zeta. unfold print, path_is_file, path_unlink. munfold.
  destruct (FS.is_file (fs s) (cwd s) (outdir // (outfile +:+ "." +:+ ext))) eqn:E; msimp.
  - destruct (FSMore.unlink_file _ _ _ E) as [fs' Hu]. rewrite Hu. msimp.
    eexists. split; [reflexivity|]. split; [|done]. msimp.
    by eapply FSFacts.unlink_submap.
  - eexists. split; [reflexivity|]. by split.
Qed.

Lemma cleanup_loop_returns (outdir : PurePath.t) (outfile : string) (exts : list string)
    (s : state) :
  ∃ s',
    for_ exts (λ ext,
      let f := outdir // (outfile +:+ "." +:+ ext) in
      print ("Should delete " +:+ PurePath.to_string f) ;;;
      let* b := path_is_file f in
      if b then path_unlink f else ret tt) s = (inr tt, s')
    ∧ only_removes s s'.
Proof.
  revert s. induction exts as [|ext exts IH]; intros s; cbn [for_].
  - exists s. split; [done|]. by split.
  - destruct (cleanup_turn_returns outdir outfile ext s) as (s1 & H1 & Hs1 & E1).
    destruct (IH s1) as (s' & H2 & Hs2 & E2).
    exists s'. split.
    + unfold bind at 1. cbv zeta in H1. rewrite H1. exact H2.
    + split; [by etrans|]. destruct E1 as (?&?&?&?), E2 as (?&?&?&?).
      repeat split; congruence.
Qed.

(** X1. The pre-run cleanup never raises: whatever the destination holds,
    [_remove_potential_outfiles] returns.  It only removes entries of the
    filesystem, leaving the instance, the working directory and the locks
    as they are, and when the destination is not a directory it does
    nothing at all, not even print. *)
Theorem cleanup_always_returns (model : string) (outdir : PurePath.t) (outfile : string)
    (s : state) :
  ∃ s', _remove_potential_outfiles model outdir outfile s = (inr tt, s')
        ∧ fs s' ⊆ fs s ∧ self s' = self s ∧ cwd s' = cwd s ∧ held s' = held s
        ∧ (if FS.is_dir (fs s) (cwd s) outdir then True else s' = s).
Proof.
  unfold _remove_potential_outfiles, path_is_dir. unfold bind at 1. unfold gets at 1.
  destruct (FS.is_dir (fs s) (cwd s) outdir); cbn [negb].
  - destruct (cleanup_loop_returns outdir outfile ["spec"; "iden"; "eqws"; "cont"] s)
      as (s' & H & Hsub & Hself & Hcwd & Hheld & _).
    exists s'. done.
  - exists s. done.
Qed.

(* ===================================================================== *)
(** ** The runner when things are missing *)
(* ===================================================================== *)

(** X2. The runner opens the model input before the log.  When
    [{model}.5] cannot be read in the run directory, the runner raises
    the error of that read, after having made the link [fort.8] and
    nothing else: the log is neither created nor truncated and no
    process is spawned. *)
Theorem run_without_input (env : Env) (model : string) (rundir : PurePath.t) (s : state)
    (q8 : FS.path) (e : FS.errno) :
  let link := rundir // "fort.8" in
  let input := rundir // (model +:+ ".5") in
  let fs1 := <[q8 := FS.Link (model +:+ ".7")]> (fs s) in
  FS.locate (fs s) (cwd s) false link = inr q8 →
  FS.node_at (fs s) q8 ≠ Some FS.Dir →
  FS.read fs1 (cwd s) input = inl e →
  ∃ s',
    _run env model rundir s = (inl (exn_of_errno e (PurePath.to_string input)), s')
    ∧ fs s' = fs1
    ∧ trace s' = trace s ++ [ EvSymlink (model +:+ ".7") (PurePath.to_string link);
                              EvOpenRead (PurePath.to_string input) ]
    ∧ self s' = self s.
Proof.
  intros link input fs1 Hloc Hnode Hread.
  unfold _run. munfold. fold link input.
  rewrite Hloc. msimp.
  destruct (FS.node_at (fs s) q8) as [[c| |t]|] eqn:En; try done; msimp;
    fold fs1; rewrite Hread; msimp;
    (eexists; split; [reflexivity|]; msimp; by rewrite <- app_assoc).
Qed.

Lemma run_without_input_witness :
  let s := Demo.world (Demo.without "m.5" (Demo.files "" "" "ok")) in
  let w := PurePath.of_location ["w"] in
  let fs1 := <[["w"; "fort.8"] := FS.Link "m.7"]> (fs s) in
  FS.locate (fs s) (cwd s) false (w // "fort.8") = inr ["w"; "fort.8"]
  ∧ FS.node_at (fs s) ["w"; "fort.8"] ≠ Some FS.Dir
  ∧ FS.read fs1 (cwd s) (w // "m.5") = inl FS.ENOENT
  ∧ ∃ s', _run Demo.env "m" w s = (inl (FileNotFoundError "/w/m.5"), s')
          ∧ trace s' = [EvSymlink "m.7" "/w/fort.8"; EvOpenRead "/w/m.5"].
Proof.
  intros s w fs1.
  assert (FS.locate (fs s) (cwd s) false (w // "fort.8") = inr ["w"; "fort.8"]) as H1
    by (vm_compute; reflexivity).
  assert (FS.node_at (fs s) ["w"; "fort.8"] ≠ Some FS.Dir) as H2
    by (vm_compute; discriminate).
  assert (FS.read fs1 (cwd s) (w // "m.5") = inl FS.ENOENT) as H3
    by (vm_compute; reflexivity).
  repeat (split; [assumption|]).
  destruct (run_without_input Demo.env "m" w s ["w"; "fort.8"] FS.ENOENT H1 H2 H3)
    as (s' & Hrun & _ & Htrace & _).
  exists s'. split; [exact Hrun | exact Htrace].
Defined.



(* ===================================================================== *)
(** ** What the extraction leaves behind *)
(* ===================================================================== *)

#[global] Instance only_adds_preorder : PreOrder only_adds.
Proof.
  split.
  - intros s. by split.
  - intros a b c (Ha & ? & ? & ?) (Hb & ? & ? & ?).
    split; [intros k Hk; by apply Hb, Ha|]. repeat split; congruence.
Qed.







(* ===================================================================== *)
(** ** Reading back what was copied *)
(* ===================================================================== *)

Lemma read_after_write (fs0 : FS.t) (cwd : FS.path) (p : PurePath.t) (q : FS.path)
    (c : string) :
  FS.locate fs0 cwd true p = inr q →
  (FS.node_at fs0 q = None ∨ ∃ c0, FS.node_at fs0 q = Some (FS.File c0)) →
  FS.read (<[q := FS.File c]> fs0) cwd p = inr c.
Proof.
  intros Hq Hnode.
  assert (q ≠ []) as Hne by (intros ->; by destruct Hnode as [? | [? ?]]).
  assert (fs0 !! q = None ∨ ∃ c0, fs0 !! q = Some (FS.File c0)) as Hnode'.
  { unfold FS.node_at in Hnode. by destruct q. }
  unfold FS.read, FS.stat, FS.locate in *.
  rewrite (FSMore.walk_insert_file _ _ _ c Hne Hnode' _ _ Hq).
  unfold FS.node_at. destruct q; [done|]. by rewrite lookup_insert_eq.
Qed.

Lemma read_beside_write (fs0 : FS.t) (cwd : FS.path) (p : PurePath.t) (q qs : FS.path)
    (c : string) :
  FS.locate fs0 cwd true p = inr qs → qs ≠ q →
  (FS.node_at fs0 q = None ∨ ∃ c0, FS.node_at fs0 q = Some (FS.File c0)) →
  FS.read (<[q := FS.File c]> fs0) cwd p = FS.read fs0 cwd p.
Proof.
  intros Hqs Hne Hnode.
  assert (q ≠ []) as Hq by (intros ->; by destruct Hnode as [? | [? ?]]).
  assert (fs0 !! q = None ∨ ∃ c0, fs0 !! q = Some (FS.File c0)) as Hnode'.
  { unfold FS.node_at in Hnode. by destruct q. }
  unfold FS.read, FS.stat, FS.locate in *.
  rewrite (FSMore.walk_insert_other _ _ _ c Hq Hnode' _ _ _ Hqs Hne), Hqs.
  unfold FS.node_at. destruct qs; [done|]. by rewrite lookup_insert_ne.
Qed.

(** A copy that succeeds can be read back, and leaves its source as it
    was. *)
Lemma copyfile_read_back (src dst : PurePath.t) (s s' : state) :
  copyfile src dst s = (inr tt, s') →
  ∃ content, FS.read (fs s) (cwd s) src = inr content
             ∧ FS.read (fs s') (cwd s') dst = inr content
             ∧ FS.read (fs s') (cwd s') src = inr content.
Proof.
  unfold copyfile. munfold.
  destruct (samefile (fs s) (cwd s) src dst) eqn:Hsame; msimp; [done|].
  destruct (FS.read (fs s) (cwd s) src) as [e|content] eqn:Hread; msimp; [done|].
  unfold FS.create.
  destruct (FS.locate (fs s) (cwd s) true dst) as [e|q] eqn:Hq; msimp; [done|].
  assert (∃ qs, FS.locate (fs s) (cwd s) true src = inr qs ∧ qs ≠ q) as (qs & Hqs & Hne).
  { unfold samefile in Hsame. rewrite Hq in Hsame.
    unfold FS.read, FS.stat in Hread. unfold FS.exists_, FS.stat in Hsame.
    destruct (FS.locate (fs s) (cwd s) true src) as [e|qs]; [done|].
    exists qs. split; [done|]. intros ->.
    rewrite bool_decide_eq_true_2 in Hsame by done.
    by destruct (FS.node_at (fs s) q) as [[]|]. }
  destruct (FS.node_at (fs s) q) as [[c| |t]|] eqn:Hn; msimp; try done;
    intros [= <-]; msimp; rewrite insert_insert_eq; exists content;
    (split; [done|]); (split; [apply read_after_write; eauto|]);
    (rewrite (read_beside_write _ _ _ _ _ _ Hqs Hne); eauto).
Qed.

Lemma extract_log_read (model : string) (rundir outdir : PurePath.t)
    (outfile : string) (s s' : state) :
  _extract_outfiles model rundir outdir outfile s = (inr tt, s') →
  ∃ text, FS.read (fs s') (cwd s') (rundir // "fort.log") = inr text
          ∧ FS.read (fs s') (cwd s') (outdir // (outfile +:+ ".log")) = inr text.
Proof.
  unfold _extract_outfiles. intros H.
  apply bind_inv in H as [(e & _ & ?) | ([] & s1 & _ & H)]; [done|].
  apply bind_inv in H as [(e & _ & ?) | ([] & s5 & _ & H)]; [done|].
  apply copyfile_read_back in H as (content & _ & Hdst & Hsrc).
  exists content. done.
Qed.

Lemma read_is_file (fs0 : FS.t) (cwd : FS.path) (p : PurePath.t) (c : string) :
  FS.read fs0 cwd p = inr c → FS.is_file fs0 cwd p = true.
Proof.
  unfold FS.read, FS.is_file. by destruct (FS.stat fs0 cwd p) as [e|[c0| |t]].
Qed.

Lemma is_file_beside_write (fs0 : FS.t) (cwd : FS.path) (p : PurePath.t) (q : FS.path)
    (c : string) :
  (FS.node_at fs0 q = None ∨ ∃ c0, FS.node_at fs0 q = Some (FS.File c0)) →
  FS.is_file fs0 cwd p = true →
  FS.is_file (<[q := FS.File c]> fs0) cwd p = true.
Proof.
  intros Hnode Hp.
  destruct (FS.read fs0 cwd p) as [e|c0] eqn:Hread.
  { revert Hp Hread. unfold FS.read, FS.is_file.
    by destruct (FS.stat fs0 cwd p) as [e0|[c0| |t]]. }
  assert (∃ qp, FS.locate fs0 cwd true p = inr qp) as [qp Hqp].
  { revert Hread. unfold FS.read, FS.stat.
    destruct (FS.locate fs0 cwd true p) as [e|qp]; [done | eauto]. }
  destruct (decide (qp = q)) as [->|Hne].
  - by rewrite (read_is_file _ _ _ c (read_after_write _ _ _ _ c Hqp Hnode)).
  - apply (read_is_file _ _ _ c0).
    by rewrite (read_beside_write _ _ _ _ _ c Hqp Hne Hnode).
Qed.

Lemma copyfile_keeps_files (src dst : PurePath.t) : stable keeps_files (copyfile src dst).
Proof.
  intros s r s' H p. revert H. unfold copyfile. munfold.
  destruct (samefile (fs s) (cwd s) src dst); msimp; [by intros [= <- <-]|].
  destruct (FS.read (fs s) (cwd s) src) as [e|content]; msimp; [by intros [= <- <-]|].
  unfold FS.create.
  destruct (FS.locate (fs s) (cwd s) true dst) as [e|q]; msimp; [by intros [= <- <-]|].
  destruct (FS.node_at (fs s) q) as [[c| |t]|] eqn:Hn; msimp; intros [= <- <-]; msimp;
    try done; rewrite insert_insert_eq; apply is_file_beside_write; eauto.
Qed.

Lemma copyfile_dst_file (src dst : PurePath.t) (s s' : state) :
  copyfile src dst s = (inr tt, s') → FS.is_file (fs s') (cwd s') dst = true.
Proof.
  intros H. apply copyfile_read_back in H as (content & _ & Hdst & _).
  by apply read_is_file in Hdst.
Qed.

Lemma extract_files (model : string) (rundir outdir : PurePath.t)
    (outfile : string) (s s' : state) :
  _extract_outfiles model rundir outdir outfile s = (inr tt, s') →
  ∀ ext, ext ∈ artifact_exts →
         FS.is_file (fs s') (cwd s') (outdir // (outfile +:+ "." +:+ ext)) = true.
Proof.
  unfold _extract_outfiles, output_units. cbn [for_]. intros H.
  apply bind_inv in H as [(e & _ & ?) | ([] & s0 & _ & H)]; [done|].
  apply bind_inv in H as [(e & _ & ?) | ([] & s4 & Hloop & Hlog)]; [done|].
  apply bind_inv in Hloop as [(e & _ & ?) | ([] & s1 & H1 & Hloop)]; [done|].
  apply bind_inv in Hloop as [(e & _ & ?) | ([] & s2 & H2 & Hloop)]; [done|].
  apply bind_inv in Hloop as [(e & _ & ?) | ([] & s3 & H3 & Hloop)]; [done|].
  apply bind_inv in Hloop as [(e & _ & ?) | ([] & s4' & H4 & Hloop)]; [done|].
  injection Hloop as ->.
  pose proof (copyfile_keeps_files _ _ _ _ _ H2) as K2.
  pose proof (copyfile_keeps_files _ _ _ _ _ H3) as K3.
  pose proof (copyfile_keeps_files _ _ _ _ _ H4) as K4.
  pose proof (copyfile_keeps_files _ _ _ _ _ Hlog) as K5.
  apply copyfile_dst_file in H1, H2, H3, H4, Hlog.
  intros ext Hext. unfold artifact_exts in Hext.
  repeat (apply elem_of_cons in Hext as [->|Hext]); [| | | | | by apply elem_of_nil in Hext].
  - by apply K5, K4, K3, K2.
  - by apply K5, K4, K3.
  - by apply K5, K4.
  - by apply K5.
  - exact Hlog.
Qed.

(** X5. An extraction that returned has delivered: each of the five
    artifacts, [outfile] with the extensions [spec], [iden], [eqws],
    [cont] and [log], is a regular file of the destination, the copies
    made later having left the earlier ones in place; and the log
    artifact is a faithful copy: it and [fort.log] of the run directory
    are readable and hold the same text, whatever links the paths go
    through. *)
Theorem extraction_delivers (model : string) (rundir outdir : PurePath.t)
    (outfile : string) (s s' : state) :
  _extract_outfiles model rundir outdir outfile s = (inr tt, s') →
  (∀ ext, ext ∈ artifact_exts →
          FS.is_file (fs s') (cwd s') (outdir // (outfile +:+ "." +:+ ext)) = true)
  ∧ ∃ text, FS.read (fs s') (cwd s') (rundir // "fort.log") = inr text
            ∧ FS.read (fs s') (cwd s') (outdir // (outfile +:+ ".log")) = inr text.
Proof.
  intros H. split; [by eapply extract_files | by eapply extract_log_read].
Qed.

Lemma extraction_delivers_witness :
  let s := Demo.world (Demo.files "" "" "ok"
                       ++ [ (["w"; "fort.7"], FS.File "spectrum");
                            (["w"; "fort.12"], FS.File "identification");
                            (["w"; "fort.16"], FS.File "widths");
                            (["w"; "fort.17"], FS.File "continuum");
                            (["w"; "fort.log"], FS.File "solver log") ]) in
  let w := PurePath.of_location ["w"] in
  let out := PurePath.of_location ["w"; "out"] in
  ∃ s', _extract_outfiles "m" w out "x" s = (inr tt, s')
        ∧ FS.is_file (fs s') (cwd s') (out // ("x" +:+ "." +:+ "spec")) = true
        ∧ FS.read (fs s') (cwd s') (out // ("x" +:+ ".log")) = inr "solver log".
Proof.
  intros s w out.
  assert ((_extract_outfiles "m" w out "x" s).1 = inr tt) as Hr
    by (vm_compute; reflexivity).
  assert (FS.read (fs (_extract_outfiles "m" w out "x" s).2)
                  (cwd (_extract_outfiles "m" w out "x" s).2)
                  (w // "fort.log") = inr "solver log") as Hlog
    by (vm_compute; reflexivity).
  destruct (_extract_outfiles "m" w out "x" s) as [r s'] eqn:Hx.
  cbn [fst snd] in Hr, Hlog. subst r. exists s'. split; [reflexivity|].
  destruct (extraction_delivers _ _ _ _ _ _ Hx) as (Hfiles & text & Hsrc & Hdst).
  split.
  - apply Hfiles. apply list_elem_of_here.
  - rewrite Hsrc in Hlog. injection Hlog as ->. exact Hdst.
Defined.

(* ===================================================================== *)
(** ** What a run that returned has delivered *)
(* ===================================================================== *)

(** X6. A call of [run] on a run directory of the caller that returns
    has delivered: the model path and the run directory were resolved,
    the run directory was made, the destination (the directory the
    caller names, else the run directory) was resolved after that, and
    at the end of the call each of the five artifacts, named after
    [outfile] or else after the base name of the model path, is a regular
    file of the destination; the log artifact holds what [fort.log] of
    the run directory holds. *)
Theorem run_delivers (env : Env) (model rd : string) (outdir outfile : option string)
    (s s' : state) :
  run env model (Some rd) outdir outfile s = (inr tt, s') →
  ∃ (modelpath rundir' outdir' : PurePath.t) (sC : state),
    let name := default (PurePath.name modelpath) outfile in
    path_resolve (PurePath.parse model) s = (inr modelpath, s)
    ∧ path_resolve (PurePath.parse rd) s = (inr rundir', s)
    ∧ path_mkdir_exist_ok rundir' s = (inr tt, sC)
    ∧ path_resolve (destination (Some rd) outdir rundir' s) sC = (inr outdir', sC)
    ∧ (∀ ext, ext ∈ artifact_exts →
              FS.is_file (fs s') (cwd s') (outdir' // (name +:+ "." +:+ ext)) = true)
    ∧ ∃ text, FS.read (fs s') (cwd s') (rundir' // "fort.log") = inr text
              ∧ FS.read (fs s') (cwd s') (outdir' // (name +:+ ".log")) = inr text.
Proof.
  intros H. unfold run in H.
  apply bind_inv in H as [(e & _ & ?) | (modelpath & sA & Hm & K)]; [done|].
  pose proof (path_resolve_inv _ _ _ _ Hm) as [-> _]. cbv zeta in K.
  assert (∀ o : option string,
            match o with Some o0 => o0 | None => PurePath.name modelpath end
            = default (PurePath.name modelpath) o) as Hdef by (by intros []).
  apply bind_inv in K as [(e & _ & ?) | (rundir' & sB & Hr & K)]; [done|].
  pose proof (path_resolve_inv _ _ _ _ Hr) as [-> _].
  apply bind_inv in K as [(e & _ & ?) | ([] & sC & Hmk & K)]; [done|].
  apply bind_inv in K as [(e & _ & ?) | (outdir' & sD & Ho & K)]; [done|].
  pose proof (path_resolve_inv _ _ _ _ Ho) as [-> _].
  rewrite with_folderlock in K. cbv zeta in K. rewrite Hdef in K.
  destruct (bool_decide _) in K; [done|].
  destruct (run_body env _ modelpath outdir' _ rundir' _) as [res s2] eqn:Ebody.
  cbn [fst snd] in K. injection K as -> <-. msimp.
  rewrite run_body_split in Ebody.
  destruct (before_extraction _ _ _ _ _ _ _) as [[e|[]] s3]; [done|].
  exists modelpath, rundir', outdir', sC. cbv zeta.
  split; [exact Hm|]. split; [exact Hr|]. split; [exact Hmk|].
  split; [by destruct outdir|].
  split; [by eapply extract_files | by eapply extract_log_read].
Qed.

Lemma run_delivers_witness :
  let s := Demo.world (Demo.files "" "" "ok") in
  ∃ s' modelpath outdir',
    run Demo.env "m" (Some "run") None None s = (inr tt, s')
    ∧ path_resolve (PurePath.parse "m") s = (inr modelpath, s)
    ∧ FS.is_file (fs s') (cwd s')
        (outdir' // (default (PurePath.name modelpath) None +:+ "." +:+ "spec")) = true.
Proof.
  intros s.
  assert ((run Demo.env "m" (Some "run") None None s).1 = inr tt) as Hr
    by (vm_compute; reflexivity).
  destruct (run Demo.env "m" (Some "run") None None s) as [r s'] eqn:Hrun.
  cbn [fst] in Hr. subst r.
  destruct (run_delivers Demo.env "m" "run" None None s s' Hrun)
    as (modelpath & rundir' & outdir' & sC & Hm & _ & _ & _ & Hfiles & _).
  exists s', modelpath, outdir'. split; [reflexivity|]. split; [exact Hm|].
  apply Hfiles. apply list_elem_of_here.
Defined.

(* ===================================================================== *)
(** ** The temporary run directory *)
(* ===================================================================== *)

Lemma mkdtemp_spec (names : list string) :
  ∀ (s s' : state) (r : exn + string),
    mkdtemp names s = (r, s') →
    self s' = self s ∧ cwd s' = cwd s ∧ held s' = held s
    ∧ match r with
      | inl e => fs s' = fs s ∧ trace s' = trace s
      | inr d => FS.mkdir (fs s) (cwd s) (PurePath.parse d) = inr (fs s')
                 ∧ trace s' = trace s ++ [EvMkdtemp d]
      end.
Proof.
  induction names as [|n names IH]; intros s s' r; simpl.
  - unfold raise. by intros [= <- <-].
  - munfold.
    destruct (FS.mkdir (fs s) (cwd s) (PurePath.parse ("/tmp/" +:+ n))) as [e|fs'] eqn:Emk;
      msimp.
    + destruct e; try (by intros [= <- <-]).
      intros H. apply IH in H. revert H. by msimp.
    + by intros [= <- <-].
Qed.

(** X7. The temporary run directory and the block it is made for.
    Either no directory could be made, and [tempdir] raises with the
    filesystem as it was; or a fresh directory is made under [/tmp], the
    body runs on its resolved path, and however the body ends, with a
    result or an exception, the removal of the directory is asked for as
    the last effect.  When the path still leads to a directory, the
    outcome is the one of the body and nothing is left at or below the
    directory, while every other entry is as the body left it.  When the
    body has left a regular file in the place of the directory, the
    removal fails: the call ends on [NotADirectoryError], whatever the
    outcome of the body was, and the filesystem is as the body left it.
    When nothing is left at the path, the outcome is the one of the
    body. *)
Theorem tempdir_is_removed (body : PurePath.t → M unit) (s s' : state) (r : exn + unit) :
  tempdir body s = (r, s') →
  (∃ e, r = inl e ∧ fs s' = fs s ∧ trace s' = trace s)
  ∨ ∃ (d : string) (s1 s2 : state) (rb : exn + unit),
      FS.mkdir (fs s) (cwd s) (PurePath.parse d) = inr (fs s1)
      ∧ trace s1 = trace s ++ [EvMkdtemp d]
      ∧ (let* p := path_resolve (PurePath.parse d) in body p) s1 = (rb, s2)
      ∧ trace s' = trace s2 ++ [EvRmtree d]
      ∧ self s' = self s2 ∧ cwd s' = cwd s2 ∧ held s' = held s2
      ∧ (∀ q, FS.locate (fs s2) (cwd s2) false (PurePath.parse d) = inr q →
              FS.node_at (fs s2) q = Some FS.Dir →
              r = rb
              ∧ (∀ k, q `prefix_of` k → fs s' !! k = None)
              ∧ (∀ k, ¬ q `prefix_of` k → fs s' !! k = fs s2 !! k))
      ∧ (∀ q c, FS.locate (fs s2) (cwd s2) false (PurePath.parse d) = inr q →
                FS.node_at (fs s2) q = Some (FS.File c) →
                r = inl (NotADirectoryError d) ∧ fs s' = fs s2)
      ∧ (∀ q, FS.locate (fs s2) (cwd s2) false (PurePath.parse d) = inr q →
              FS.node_at (fs s2) q = None →
              r = rb ∧ fs s' = fs s2).
Proof.
  unfold tempdir, with_.
  destruct (cm_enter TemporaryDirectory s) as [[e|d] s1] eqn:Eenter;
    cbn [cm_enter TemporaryDirectory] in Eenter; unfold bind at 1, gets in Eenter;
    apply mkdtemp_spec in Eenter as (_ & _ & _ & Hmade).
  { intros [= <- <-]. left. exists e. by destruct Hmade. }
  destruct Hmade as [Hmk Ht1].
  destruct (bind (path_resolve (PurePath.parse d)) _ s1) as [res s2] eqn:Ebody.
  destruct (cm_exit TemporaryDirectory d s2) as [rx s3] eqn:Eexit.
  pose proof (tempdir_exit _ _ _ _ Eexit) as (Ht & _ & Hself & Hcwd & Hheld & _).
  intros K. assert (s' = s3) as -> by (destruct rx as [e|[]]; by injection K).
  right. exists d, s1, s2, res.
  repeat (split; [done|]).
  revert Eexit K. cbn [cm_exit TemporaryDirectory]. munfold. unfold rmtree_target. msimp.
  intros Eexit K.
  split; [|split].
  - intros q Hq Hdir. rewrite Hq, Hdir in Eexit. injection Eexit as <- <-.
    injection K as <-. msimp. split; [done|].
    split; intros k Hk; [by apply FSMore.rmtree_lookup | by apply FSMore.rmtree_lookup_other].
  - intros q c Hq Hfile. rewrite Hq, Hfile in Eexit. injection Eexit as <- <-.
    injection K as <-. done.
  - intros q Hq Hnone. rewrite Hq, Hnone in Eexit. injection Eexit as <- <-.
    injection K as <-. done.
Qed.

Lemma tempdir_is_removed_witness :
  let s := Demo.world (Demo.files "" "" "ok") in
  let body := λ p : PurePath.t,
    open_write (p // "scratch") ;;; raise (FileNotFoundError "gone") in
  ∃ s', tempdir body s = (inl (FileNotFoundError "gone"), s')
        ∧ (trace s' = trace s ∨ ∃ d s2, trace s' = trace s2 ++ [EvRmtree d])
        ∧ fs s' !! ["tmp"; "a"; "scratch"] = None.
Proof.
  intros s body.
  assert ((tempdir body s).1 = inl (FileNotFoundError "gone")) as Hr
    by (vm_compute; reflexivity).
  assert (fs (tempdir body s).2 !! ["tmp"; "a"; "scratch"] = None) as Hgone
    by (vm_compute; reflexivity).
  destruct (tempdir body s) as [r s'] eqn:Ht.
  cbn [fst snd] in Hr, Hgone. subst r. exists s'. split; [reflexivity|].
  split; [|exact Hgone].
  destruct (tempdir_is_removed body s s' _ Ht)
    as [(e & _ & _ & Htr) | (d & s1 & s2 & rb & _ & _ & _ & Htr & _)].
  - left. exact Htr.
  - right. exists d, s2. exact Htr.
Defined.
